(** * sorbet-lsp: launch command, shell-aware spawner and connection lifecycle

    A shallow embedding of [src/extension.ts].  The file follows the source
    top-down: JavaScript values and strings, the command built by
    [startLanguageServer], [commonOptions] and [spawnWithBash] over a heap of
    arrays, and finally the start / restart / deactivate life cycle as a
    transition system driven by the editor and by the language client. *)

From stdpp Require Import gmap strings list fin_maps.
From Stdlib Require Import NArith ZArith Ascii.

Open Scope list_scope.

(** ** JavaScript strings

    A JavaScript string is a sequence of UTF-16 code units. *)

Module JsString.

Abbreviation jstring := (list N).

(** A string literal of the source (all of them are ASCII). *)
Definition js (s : string) : jstring :=
  (fun a => N_of_ascii a) <$> String.list_ascii_of_string s.

(** [WhiteSpace] and [LineTerminator] of ECMAScript, the code units that
    [String.prototype.trim] strips. *)
Definition isWhiteSpace (c : N) : bool :=
  ((9 <=? c) && (c <=? 13)                 (* TAB LF VT FF CR *)
   || (c =? 32) || (c =? 160)              (* SP, NBSP *)
   || (c =? 5760)                          (* U+1680 *)
   || ((8192 <=? c) && (c <=? 8202))       (* U+2000 .. U+200A *)
   || (c =? 8232) || (c =? 8233)           (* LS, PS *)
   || (c =? 8239) || (c =? 8287)           (* U+202F, U+205F *)
   || (c =? 12288) || (c =? 65279))%N.     (* U+3000, U+FEFF *)

Fixpoint trimStart (s : jstring) : jstring :=
  match s with
  | [] => []
  | c :: s' => if isWhiteSpace c then trimStart s' else s
  end.

Definition trimEnd (s : jstring) : jstring :=
  reverse (trimStart (reverse s)).

(** [s.trim()] *)
Definition trim (s : jstring) : jstring := trimEnd (trimStart s).

Definition jstring_eqb (s t : jstring) : bool := bool_decide (s = t).

(** [s.endsWith(t)] *)
Definition endsWith (s t : jstring) : bool :=
  jstring_eqb (drop (length s - length t) s) t && (length t <=? length s)%nat.

(** [s.startsWith(t)] *)
Fixpoint startsWith (s t : jstring) : bool :=
  match t, s with
  | [], _ => true
  | c :: t', d :: s' => (c =? d)%N && startsWith s' t'
  | _ :: _, [] => false
  end.

(** [t] occurs somewhere in [s]: what matching a regular expression that
    is a plain word amounts to. *)
Fixpoint includes (s t : jstring) : bool :=
  startsWith s t ||
  match s with
  | [] => false
  | _ :: s' => includes s' t
  end.

(** [a.join(sep)] on an array of strings. *)
Fixpoint join (sep : jstring) (l : list jstring) : jstring :=
  match l with
  | [] => []
  | [s] => s
  | s :: l' => s ++ sep ++ join sep l'
  end.

End JsString.
Export JsString.

(** ** JavaScript values

    Configuration values come from the user's settings, so any JSON value
    can show up, and [undefined] for a missing key. *)

Inductive jsval :=
  | JUndefined
  | JNull
  | JBool (b : bool)
  | JNum (z : Z)          (* a number; zero is the falsy one *)
  | JStr (s : jstring)
  | JObj (id : nat).      (* an object or array of the settings, opaque *)

#[global] Instance jsval_eq_dec : EqDecision jsval.
Proof. solve_decision. Defined.

(** ToBoolean *)
Definition truthy (v : jsval) : bool :=
  match v with
  | JUndefined | JNull => false
  | JBool b => b
  | JNum z => negb (z =? 0)%Z
  | JStr s => match s with [] => false | _ => true end
  | JObj _ => true
  end.

(** [a || b] *)
Definition js_or (a b : jsval) : jsval := if truthy a then a else b.

(** ** Exceptions *)

Inductive exn :=
  | TypeError.

Inductive result (A : Type) :=
  | Ok (a : A)
  | Throw (e : exn).
Arguments Ok {A} a.
Arguments Throw {A} e.

Definition rbind {A B} (r : result A) (k : A -> result B) : result B :=
  match r with
  | Ok a => k a
  | Throw e => Throw e
  end.

(** [v.trim()]: only a string has the method; on [undefined] and [null] the
    property access throws, on any other settings value the call does. *)
Definition js_trim (v : jsval) : result jstring :=
  match v with
  | JStr s => Ok (trim s)
  | _ => Throw TypeError
  end.

(** ** The command built by [startLanguageServer] (lines 60-85) *)

(** The five settings read from [getConfiguration('sorbet')]. *)
Record Config := {
  commandPath : jsval;
  useBundler : jsval;
  useWatchman : jsval;
  bundlerPath : jsval;
  commandOptions : jsval
}.

Definition buildCommand (vsconfig : Config) : result (list jsval) :=
  let cmd : list jsval := [] in
  let commandPath := js_or (commandPath vsconfig) (JStr (js "srb")) in
  let useBundler := useBundler vsconfig in
  let useWatchman := useWatchman vsconfig in
  let bundlerPath := js_or (bundlerPath vsconfig) (JStr (js "bundle")) in
  rbind (js_trim (commandOptions vsconfig)) (fun commandOptions =>
  let cmd :=
    if truthy useBundler
    then cmd ++ [bundlerPath; JStr (js "exec"); JStr (js "srb")]
    else cmd ++ [commandPath] in
  let cmd := cmd ++ [JStr (js "tc"); JStr (js "--lsp")] in
  let cmd :=
    if truthy (JStr commandOptions)
    then cmd ++ [JStr commandOptions]
    else cmd ++ [JStr (js "--enable-all-experimental-lsp-features")] in
  let cmd :=
    if negb (truthy useWatchman)
    then cmd ++ [JStr (js "--disable-watchman")]
    else cmd in
  Ok cmd).

(** ** Objects and arrays

    An object literal is a finite map from property names to values; an
    array lives in the heap and is passed around by reference. *)

Abbreviation jsobj := (gmap string jsval).

(** [o[k]]: a missing property reads as [undefined]. *)
Definition prop (o : jsobj) (k : string) : jsval := default JUndefined (o !! k).

Definition loc := nat.

Abbreviation heap := (gmap loc (list jsval)).

Definition deref (h : heap) (l : loc) : list jsval := default [] (h !! l).

(** [a.shift()]: the removed first element ([undefined] on an empty array)
    and what is left of the array. *)
Definition shift (a : list jsval) : jsval * list jsval :=
  match a with
  | [] => (JUndefined, [])
  | v :: a' => (v, a')
  end.

(** ** [commonOptions] (lines 25-31) *)

Definition commonOptions (workspace : option jstring) : jsobj :=
  let opts : jsobj := ∅ in
  match workspace with
  | Some (c :: p) => <["cwd" := JStr (c :: p)]> opts
  | _ => opts
  end.

(** ** [spawnWithBash] (lines 33-54) *)

(** What the host tells: [os.platform()] and [vscode.env.shell] (absent on
    hosts that do not provide it). *)
Record Host := {
  platform : jstring;
  env_shell : option jstring
}.

(** The spawn primitive that ends up being called, with its arguments. *)
Inductive spawn_call :=
  | ChildProcessSpawn (command : jstring) (args : list jstring) (options : jsobj)
  | CrossSpawn (command : jsval) (args : list jsval) (options : jsobj).

(** [platform().match(/darwin|linux/)] *)
Definition isUnixLike (host : Host) : bool :=
  includes (platform host) (js "darwin") || includes (platform host) (js "linux").

(** [env.shell || '/bin/bash'] *)
Definition resolveShell (host : Host) : jstring :=
  match env_shell host with
  | Some (c :: s) => c :: s
  | _ => js "/bin/bash"
  end.

Definition isBashOrZsh (shell : jstring) : bool :=
  endsWith shell (js "bash") || endsWith shell (js "zsh").

Section Spawner.

(** The package shell-escape is a dependency, not part of the repository:
    it quotes each token for the shell and joins the results with single
    spaces.  How one token is quoted is left open. *)
Variable quote : jsval -> result jstring.

Fixpoint quoteAll (a : list jsval) : result (list jstring) :=
  match a with
  | [] => Ok []
  | v :: a' =>
      rbind (quote v) (fun q =>
      rbind (quoteAll a') (fun qs => Ok (q :: qs)))
  end.

Definition shellEscape (a : list jsval) : result jstring :=
  rbind (quoteAll a) (fun qs => Ok (join (js " ") qs)).

(** The array [cmd] is passed by reference: the function reads it from the
    heap and, on the direct path, leaves it shifted. *)
Definition spawnWithBash (host : Host) (cmd : loc) (opts : jsobj) (h : heap)
  : result spawn_call * heap :=
  let direct :=
    let '(program, rest) := shift (deref h cmd) in
    let h' := <[cmd := rest]> h in
    (Ok (CrossSpawn program (deref h' cmd) opts), h') in
  if isUnixLike host then
    let shell := resolveShell host in
    if isBashOrZsh shell then
      let spawned :=
        rbind (shellEscape (deref h cmd)) (fun shellCmd =>
        rbind (if truthy (prop opts "cwd")
               then rbind (shellEscape [JStr (js "cd"); prop opts "cwd"])
                      (fun cd => Ok (cd ++ js " && " ++ shellCmd))
               else Ok shellCmd) (fun shellCmd =>
        let shellArgs := [shellCmd] in
        let shellArgs := js "-c" :: shellArgs in
        let shellArgs := js "-l" :: shellArgs in
        Ok (ChildProcessSpawn shell shellArgs (opts ∪ {["shell" := JStr shell]})))) in
      (spawned, h)
    else direct
  else direct.

End Spawner.

(** ** The life cycle (lines 23, 56-169)

    The language client, the editor and the promise machinery are outside
    the file.  What they do is recorded as events; when they do it is an
    action of the transition system below. *)

Definition cid := nat.   (* language clients, numbered as they are created *)
Definition pid := nat.   (* promises returned by [client.stop()] *)

Inductive event :=
  | EvInfo (msg : jstring)                  (* showInformationMessage *)
  | EvWatcher (glob : jstring)              (* createFileSystemWatcher *)
  | EvNew (c : cid)                         (* new LanguageClient *)
  | EvStart (c : cid)                       (* client.start() *)
  | EvStop (c : cid) (p : pid)              (* client.stop(), returning p *)
  | EvStopDone (p : pid)                    (* p is fulfilled *)
  | EvStopFailed (p : pid)                  (* p is rejected *)
  | EvResume (p : pid)                      (* the callback hung on p is called *)
  | EvDispose (c : cid)                     (* dispose() of what start() of c returned *)
  | EvSpawn (c : cid) (call : spawn_call).  (* serverOptions of c spawned a process *)

(** The closure [serverOptions] (lines 100-111) captures the array [cmd]
    and the options [env]. *)
Record Closure := {
  cl_cmd : loc;
  cl_env : jsobj
}.

(** Promise jobs of this file: the callback of [client.stop().then] in
    [restartLanguageServer] (lines 141-145) and the one of the restart
    command (lines 155-157). *)
Inductive job :=
  | JobResume (p : pid)    (* [p]: the promise the callback hangs on *)
  | JobRestarted.

Record World := {
  client : option cid;               (* the module variable [client] *)
  disposableClient : option cid;     (* [disposableClient] of [activate] *)
  store : heap;                      (* the arrays *)
  servers : gmap cid Closure;        (* the serverOptions each client was given *)
  stops : gmap pid bool;             (* pending stop promises; [true]: a restart waits on it *)
  jobs : list job;                   (* promise jobs, oldest first *)
  trace : list event;                (* what happened so far, oldest first *)
  next_loc : loc;
  next_cid : cid;
  next_pid : pid
}.

Definition init : World :=
  {| client := None; disposableClient := None; store := ∅; servers := ∅;
     stops := ∅; jobs := []; trace := []; next_loc := 0; next_cid := 0;
     next_pid := 0 |}.

(** What the editor tells when asked: the settings, the workspace folders
    (their [uri.fsPath]) and the file system. *)
Record Editor := {
  vsconfig : Config;
  workspaceFolders : option (list jstring);
  existsSync : jstring -> bool
}.

(** Code that changes the world and may throw. *)
Definition M (A : Type) : Type := World -> result A * World.

Definition ret {A} (a : A) : M A := fun w => (Ok a, w).

Definition bind {A B} (m : M A) (k : A -> M B) : M B :=
  fun w =>
    match m w with
    | (Ok a, w') => k a w'
    | (Throw e, w') => (Throw e, w')
    end.

Definition lift {A} (r : result A) : M A := fun w => (r, w).

Notation "'let!' x ':=' m 'in' k" := (bind m (fun x => k))
  (at level 10, x name, m at level 100, k at level 200).
Notation "'run!' m 'in' k" := (bind m (fun _ => k))
  (at level 10, m at level 100, k at level 200).

Definition emit (e : event) : M unit := fun w =>
  (Ok tt,
   {| client := client w; disposableClient := disposableClient w;
      store := store w; servers := servers w; stops := stops w;
      jobs := jobs w; trace := trace w ++ [e]; next_loc := next_loc w;
      next_cid := next_cid w; next_pid := next_pid w |}).

Definition enqueue (j : job) : M unit := fun w =>
  (Ok tt,
   {| client := client w; disposableClient := disposableClient w;
      store := store w; servers := servers w; stops := stops w;
      jobs := jobs w ++ [j]; trace := trace w; next_loc := next_loc w;
      next_cid := next_cid w; next_pid := next_pid w |}).

(** A new array with the given elements. *)
Definition alloc (a : list jsval) : M loc := fun w =>
  (Ok (next_loc w),
   {| client := client w; disposableClient := disposableClient w;
      store := <[next_loc w := a]> (store w); servers := servers w;
      stops := stops w; jobs := jobs w; trace := trace w;
      next_loc := S (next_loc w); next_cid := next_cid w;
      next_pid := next_pid w |}).

(** [client = new LanguageClient(.., serverOptions, ..)] *)
Definition newLanguageClient (serverOptions : Closure) : M cid := fun w =>
  let c := next_cid w in
  (Ok c,
   {| client := Some c; disposableClient := disposableClient w;
      store := store w; servers := <[c := serverOptions]> (servers w);
      stops := stops w; jobs := jobs w; trace := trace w ++ [EvNew c];
      next_loc := next_loc w; next_cid := S c; next_pid := next_pid w |}).

(** [disposableClient = client.start()] *)
Definition clientStart (c : cid) : M unit := fun w =>
  (Ok tt,
   {| client := client w; disposableClient := Some c;
      store := store w; servers := servers w; stops := stops w;
      jobs := jobs w; trace := trace w ++ [EvStart c]; next_loc := next_loc w;
      next_cid := next_cid w; next_pid := next_pid w |}).

(** [client.stop()]: the handshake is asked for and a pending promise comes
    back; [waiting] tells whether a restart hangs its callback on it.
    Calling it while [client] is still undefined throws. *)
Definition clientStop (waiting : bool) : M pid := fun w =>
  match client w with
  | None => (Throw TypeError, w)
  | Some c =>
      let p := next_pid w in
      (Ok p,
       {| client := client w; disposableClient := disposableClient w;
          store := store w; servers := servers w;
          stops := <[p := waiting]> (stops w); jobs := jobs w;
          trace := trace w ++ [EvStop c p]; next_loc := next_loc w;
          next_cid := next_cid w; next_pid := S p |})
  end.

(** [disposableClient.dispose()] *)
Definition disposeClient : M unit := fun w =>
  match disposableClient w with
  | None => (Throw TypeError, w)
  | Some d => emit (EvDispose d) w
  end.

Definition notFound : jstring :=
  js "Sorbet config not found. Sorbet server will not be started".

Definition restarted : jstring := js "Sorbet server restarted.".

Definition watched : jstring := js "{**/*.rb,**/*.gemspec,**/Gemfile}".

(** Line 87 *)
Definition firstWorkspace (ed : Editor) : option jstring :=
  match workspaceFolders ed with
  | Some (p :: _) => Some p
  | _ => None
  end.

(** The template [`${firstWorkspace}/sorbet/config`]; [null] prints as
    "null". *)
Definition markerPath (w : option jstring) : jstring :=
  match w with
  | Some p => p
  | None => js "null"
  end ++ js "/sorbet/config".

(** [startLanguageServer] (lines 59-136).  The array [cmd] is local until
    [serverOptions] captures it; it enters the heap at that point. *)
Definition startLanguageServer (ed : Editor) : M unit :=
  let! cmd := lift (buildCommand (vsconfig ed)) in
  let firstWorkspace := firstWorkspace ed in
  if negb (existsSync ed (markerPath firstWorkspace)) then
    emit (EvInfo notFound)
  else
    let env := commonOptions firstWorkspace in
    let! cmd := alloc cmd in
    let serverOptions := {| cl_cmd := cmd; cl_env := env |} in
    run! emit (EvWatcher watched) in
    let! c := newLanguageClient serverOptions in
    clientStart c.

(** The executor of the promise made by [restartLanguageServer]
    (lines 138-151); [resolve()] lets the command's callback run as a job. *)
Definition restartLanguageServer (ed : Editor) : M unit :=
  fun w =>
    match disposableClient w with
    | Some _ => (run! clientStop true in ret tt) w
    | None => (run! startLanguageServer ed in enqueue JobRestarted) w
    end.

(** The callback of [client.stop().then] (lines 141-145), called when the
    promise [p] is fulfilled. *)
Definition resumeRestart (p : pid) (ed : Editor) : M unit :=
  run! emit (EvResume p) in
  run! disposeClient in
  run! startLanguageServer ed in
  enqueue JobRestarted.

(** [deactivate] (lines 164-169): the thenable it returns, if any. *)
Definition deactivate : M (option pid) :=
  fun w =>
    match client w with
    | None => ret None w
    | Some _ => (let! p := clientStop false in ret (Some p)) w
    end.

(** [activate] (lines 56-162) on a fresh extension host. *)
Definition activate (ed : Editor) : World := snd (startLanguageServer ed init).

(** What can happen next. *)
Inductive action :=
  | ActRestart (ed : Editor)          (* the user runs sorbet.restart *)
  | ActSettle (p : pid) (ok : bool)   (* the client ends the handshake of p *)
  | ActJob (ed : Editor)              (* the oldest promise job runs *)
  | ActLaunch (c : cid) (host : Host) (* the client c calls serverOptions() *)
  | ActDeactivate.                    (* the editor unloads the extension *)

Definition settle (p : pid) (ok : bool) : M unit := fun w =>
  match stops w !! p with
  | None => (Ok tt, w)
  | Some waiting =>
      let w' :=
        {| client := client w; disposableClient := disposableClient w;
           store := store w; servers := servers w;
           stops := delete p (stops w);
           jobs := if ok && waiting then jobs w ++ [JobResume p] else jobs w;
           trace := trace w ++ [if ok then EvStopDone p else EvStopFailed p];
           next_loc := next_loc w; next_cid := next_cid w;
           next_pid := next_pid w |} in
      (Ok tt, w')
  end.

Definition popJob : M (option job) := fun w =>
  match jobs w with
  | [] => (Ok None, w)
  | j :: js' =>
      (Ok (Some j),
       {| client := client w; disposableClient := disposableClient w;
          store := store w; servers := servers w; stops := stops w;
          jobs := js'; trace := trace w; next_loc := next_loc w;
          next_cid := next_cid w; next_pid := next_pid w |})
  end.

Definition runJob (ed : Editor) : M unit :=
  let! j := popJob in
  match j with
  | None => ret tt
  | Some (JobResume p) => resumeRestart p ed
  | Some JobRestarted => emit (EvInfo restarted)
  end.

Section Lifecycle.

Variable quote : jsval -> result jstring.

(** [serverOptions()] of client [c] (lines 100-111): a client that was
    started spawns its server whenever it sees fit. *)
Definition launch (c : cid) (host : Host) : M unit := fun w =>
  match servers w !! c with
  | None => (Ok tt, w)
  | Some so =>
      let '(r, h) := spawnWithBash quote host (cl_cmd so) (cl_env so) (store w) in
      let w' :=
        {| client := client w; disposableClient := disposableClient w;
           store := h; servers := servers w; stops := stops w;
           jobs := jobs w; trace := trace w; next_loc := next_loc w;
           next_cid := next_cid w; next_pid := next_pid w |} in
      match r with
      | Ok call => emit (EvSpawn c call) w'
      | Throw e => (Throw e, w')
      end
  end.

(** An exception ends the action at hand (a rejected promise) and leaves
    the world as it was at that point. *)
Definition step (a : action) (w : World) : World :=
  match a with
  | ActRestart ed => snd (restartLanguageServer ed w)
  | ActSettle p ok => snd (settle p ok w)
  | ActJob ed => snd (runJob ed w)
  | ActLaunch c host => snd (launch c host w)
  | ActDeactivate => snd (deactivate w)
  end.

Definition run (sched : list action) (w : World) : World :=
  foldl (fun w a => step a w) w sched.

(** The worlds an activated extension can be in. *)
Definition reachable (w : World) : Prop :=
  exists ed sched, w = run sched (activate ed).

End Lifecycle.

(** ** Concrete settings, hosts and editors used by the examples *)

Definition setOptions (cfg : Config) (v : jsval) : Config :=
  {| commandPath := commandPath cfg; useBundler := useBundler cfg;
     useWatchman := useWatchman cfg; bundlerPath := bundlerPath cfg;
     commandOptions := v |}.

(** Nothing set by the user, [commandOptions] at its empty default. *)
Definition defaultConfig : Config :=
  {| commandPath := JUndefined; useBundler := JBool false;
     useWatchman := JBool false; bundlerPath := JUndefined;
     commandOptions := JStr [] |}.

Definition bundlerConfig : Config :=
  {| commandPath := JStr (js "/opt/srb"); useBundler := JBool true;
     useWatchman := JBool true; bundlerPath := JStr (js "bin/bundle");
     commandOptions := JStr (js " --debug-log-file=/tmp/s.log ") |}.

(** Watchman wanted, and the disabling flag typed into the options. *)
Definition flagInOptions : Config :=
  {| commandPath := JUndefined; useBundler := JBool false;
     useWatchman := JBool true; bundlerPath := JUndefined;
     commandOptions := JStr (js "--disable-watchman") |}.

Definition noOptions : Config := setOptions defaultConfig JUndefined.

Definition disableWatchman : jsval := JStr (js "--disable-watchman").

Definition enableExperimental : jsval :=
  JStr (js "--enable-all-experimental-lsp-features").

(** A stand-in for the quoting of one token: a token made of letters,
    digits and [_ / : = -] needs no quoting and is returned as it is; the
    examples use no other token. *)
Definition isPlain (c : N) : bool :=
  ((48 <=? c) && (c <=? 57) || (65 <=? c) && (c <=? 90)
   || (97 <=? c) && (c <=? 122)
   || (c =? 95) || (c =? 47) || (c =? 58) || (c =? 61) || (c =? 45))%N.

Definition quotePlain (v : jsval) : result jstring :=
  match v with
  | JStr s => if forallb isPlain s then Ok s else Throw TypeError
  | _ => Throw TypeError
  end.

Definition zshMac : Host :=
  {| platform := js "darwin"; env_shell := Some (js "/bin/zsh") |}.

Definition fishLinux : Host :=
  {| platform := js "linux"; env_shell := Some (js "/usr/bin/fish") |}.

Definition windows : Host :=
  {| platform := js "win32"; env_shell := Some (js "C:\WINDOWS\System32\cmd.exe") |}.

Definition srbArgv : list jsval := [JStr (js "srb"); JStr (js "tc"); JStr (js "--lsp")].

Definition projEditor (cfg : Config) (marker : bool) : Editor :=
  {| vsconfig := cfg; workspaceFolders := Some [js "/proj"];
     existsSync := fun p => marker && jstring_eqb p (js "/proj/sorbet/config") |}.

(** A project with its marker file, opened with the default settings: the
    world right after activation, and a schedule in which the old server is
    launched, the stop handshake ends, the callback and the notification
    run, and the new server is launched. *)
Definition projectOpen : World := activate (projEditor defaultConfig true).

Definition afterRestart : list action :=
  [ActLaunch 0 zshMac; ActSettle 0 true; ActJob (projEditor defaultConfig true);
   ActJob (projEditor defaultConfig true); ActLaunch 1 zshMac].

Definition restartedWorld : World :=
  run quotePlain (ActRestart (projEditor defaultConfig true) :: afterRestart)
    projectOpen.

Definition loginShell (argv : jstring) : spawn_call :=
  ChildProcessSpawn (js "/bin/zsh") [js "-l"; js "-c"; argv]
    (commonOptions (Some (js "/proj")) ∪ {["shell" := JStr (js "/bin/zsh")]}).

(** ** Vocabulary of the statements *)

(** The parts of an argv, named for the statements below: the launcher
    prefix, the token that stands for [commandOptions] and what the
    watchman setting adds. *)
Definition launcher (cfg : Config) : list jsval :=
  if truthy (useBundler cfg)
  then [if truthy (bundlerPath cfg) then bundlerPath cfg else JStr (js "bundle");
        JStr (js "exec"); JStr (js "srb")]
  else [if truthy (commandPath cfg) then commandPath cfg else JStr (js "srb")].

Definition optionsToken (s : jstring) : jsval :=
  match trim s with
  | [] => enableExperimental
  | c :: t => JStr (c :: t)
  end.

Definition watchmanToken (cfg : Config) : list jsval :=
  if truthy (useWatchman cfg) then [] else [disableWatchman].

(** An event of the start of a client numbered [n] or later: its file
    watcher, its construction, its start or a process spawned for it. *)
Definition startsNew (n : cid) (e : event) : bool :=
  match e with
  | EvWatcher _ => true
  | EvNew c | EvStart c | EvSpawn c _ => bool_decide (n <= c)
  | _ => false
  end.

Definition isRestart (a : action) : bool :=
  match a with
  | ActRestart _ => true
  | _ => false
  end.

(** What holds of the world between two actions. *)
Record consistent (w : World) : Prop := {
  same_handle : disposableClient w = client w;
  client_known : forall c, client w = Some c -> EvNew c ∈ trace w;
  client_first : client w = None -> forall c, EvNew c ∉ trace w;
  servers_old : forall c so, servers w !! c = Some so -> c < next_cid w;
  stops_old : forall p b, stops w !! p = Some b -> p < next_pid w
}.

(** The world after a start that went through, with [cmd] the argv. *)
Definition startedWorld (ed : Editor) (cmd : list jsval) (w : World) : World :=
  {| client := Some (next_cid w); disposableClient := Some (next_cid w);
     store := <[next_loc w := cmd]> (store w);
     servers := <[next_cid w := {| cl_cmd := next_loc w;
                                   cl_env := commonOptions (firstWorkspace ed) |}]>
                  (servers w);
     stops := stops w; jobs := jobs w;
     trace := ((trace w ++ [EvWatcher watched]) ++ [EvNew (next_cid w)])
              ++ [EvStart (next_cid w)];
     next_loc := S (next_loc w); next_cid := S (next_cid w);
     next_pid := next_pid w |}.

(** ** More vocabulary: settings changed one at a time, and what a run
    without a restart command may and may not add to the trace *)

Definition setCommandPath (cfg : Config) (v : jsval) : Config :=
  {| commandPath := v; useBundler := useBundler cfg;
     useWatchman := useWatchman cfg; bundlerPath := bundlerPath cfg;
     commandOptions := commandOptions cfg |}.

Definition setBundlerPath (cfg : Config) (v : jsval) : Config :=
  {| commandPath := commandPath cfg; useBundler := useBundler cfg;
     useWatchman := useWatchman cfg; bundlerPath := v;
     commandOptions := commandOptions cfg |}.

(** The argv of a configuration whose [commandOptions] is the string [s]. *)
Definition argvOf (cfg : Config) (s : jstring) : list jsval :=
  launcher cfg ++ [JStr (js "tc"); JStr (js "--lsp")]
  ++ [optionsToken s] ++ watchmanToken cfg.

(** No restart waits for a stop, and no restart callback is queued. *)
Definition dormant (w : World) : Prop :=
  (forall q, stops w !! q <> Some true) /\ (forall q, JobResume q ∉ jobs w).

(** Events that neither make, start nor dispose of a client. *)
Definition passive (e : event) : Prop :=
  match e with
  | EvStop _ _ | EvStopDone _ | EvStopFailed _ | EvSpawn _ _ | EvInfo _ => True
  | _ => False
  end.

Definition isInfo (e : event) : bool :=
  match e with
  | EvInfo _ => true
  | _ => false
  end.

(** An editor without a workspace folder, whose file system holds the
    relative path the marker is then looked up at. *)
Definition bareEditor (cfg : Config) : Editor :=
  {| vsconfig := cfg; workspaceFolders := None;
     existsSync := fun p => jstring_eqb p (js "null/sorbet/config") |}.


(** A restart is under way: it stopped the client [c] through the promise
    [p] when the trace was [base] and [n] was the next client number.
    Either the handshake is over and [c] disposed of, with no event of a new
    start before that point, or nothing of a new start has happened yet and
    only the callback hung on [p] can bring one about. *)
Definition underWay (n c : cid) (p : pid) (base : list event) (w : World) : Prop :=
  exists ext,
    trace w = base ++ ext
    /\ ((exists X Y a b,
           ext = X ++ Y
           /\ Forall (fun ev => startsNew n ev = false) X
           /\ X = a ++ EvStopDone p :: b
           /\ EvDispose c ∈ b)
        \/ (Forall (fun ev => startsNew n ev = false) ext
            /\ next_cid w = n
            /\ (forall c' so, servers w !! c' = Some so -> c' < n)
            /\ disposableClient w = Some c
            /\ (forall q, stops w !! q = Some true -> q = p)
            /\ (forall q, JobResume q ∈ jobs w -> q = p /\ EvStopDone p ∈ ext))).

(** The order of events every run keeps.  [stoppedBefore t c p]: in [t] the
    client [c] was asked to stop, with promise [p], and [p] was fulfilled
    later on.  [released w c]: the handle of [c] is the current one or was
    disposed of.  [inCallback t]: [t] ends in a restart callback that has
    just disposed of the current handle, the stop it waited for is over and
    the handle that stop was about is disposed of. *)
Definition stoppedBefore (t : list event) (c : cid) (p : pid) : Prop :=
  exists a b e, t = a ++ EvStop c p :: b ++ EvStopDone p :: e.

Definition released (w : World) (c : cid) : Prop :=
  disposableClient w = Some c \/ EvDispose c ∈ trace w.

Definition inCallback (t : list event) : Prop :=
  exists t0 p c d,
    t = t0 ++ [EvResume p; EvDispose d]
    /\ stoppedBefore t0 c p
    /\ EvDispose c ∈ t0 ++ [EvDispose d].

(** A client is made either before any client was started or in a restart
    callback, right after the file watcher. *)
Definition startsInOrder (t : list event) : Prop :=
  forall t1 t2 c',
    t = t1 ++ EvNew c' :: t2 ->
    (forall c, EvStart c ∉ t1)
    \/ exists t0, t1 = t0 ++ [EvWatcher watched] /\ inCallback t0.

(** A process is spawned for a client only after that client was started. *)
Definition spawnsAfterStart (t : list event) : Prop :=
  forall t1 t2 c call, t = t1 ++ EvSpawn c call :: t2 -> EvStart c ∈ t1.

(** A client is started right after it was made. *)
Definition startsAfterNew (t : list event) : Prop :=
  forall t1 t2 c, t = t1 ++ EvStart c :: t2 -> exists t0, t1 = t0 ++ [EvNew c].

(** An event that can follow [t] without a start: no client is made or
    started, and a process is spawned only for a started client. *)
Definition harmless (t : list event) (e : event) : Prop :=
  match e with
  | EvNew _ | EvStart _ => False
  | EvSpawn c _ => EvStart c ∈ t
  | _ => True
  end.

Record ordered (w : World) : Prop := {
  ord_new : startsInOrder (trace w);
  ord_spawn : spawnsAfterStart (trace w);
  ord_servers : forall c so, servers w !! c = Some so -> EvStart c ∈ trace w;
  ord_idle : disposableClient w = None -> forall c, EvStart c ∉ trace w;
  ord_stops : forall p, stops w !! p = Some true ->
              exists c, EvStop c p ∈ trace w /\ released w c;
  ord_jobs : forall p, JobResume p ∈ jobs w ->
             exists c, stoppedBefore (trace w) c p /\ released w c;
  ord_start : startsAfterNew (trace w)
}.

(** Where [startLanguageServer] may be called: no handle is current any
    more, and either no client was ever started or a restart callback is
    running. *)
Definition ready (w : World) : Prop :=
  (forall c, released w c -> EvDispose c ∈ trace w)
  /\ ((forall c, EvStart c ∉ trace w) \/ inCallback (trace w)).

(** The client in [client] is the one made last, if any was made. *)
Definition latestClient (w : World) : Prop :=
  match client w with
  | None => forall c, EvNew c ∉ trace w
  | Some c =>
      exists t1 t2, trace w = t1 ++ EvNew c :: t2 /\ forall c', EvNew c' ∉ t2
  end.

(** Every client ever made is the current one or was disposed of. *)
Definition othersDisposed (w : World) : Prop :=
  forall c, EvNew c ∈ trace w -> released w c.

(** * Properties *)

(** Projections of a world that was just built. *)
Ltac world_simpl :=
  cbn [emit enqueue ret snd client disposableClient store servers stops jobs trace
       next_loc next_cid next_pid].
Tactic Notation "world_simpl" "in" hyp(H) :=
  cbn [emit enqueue ret snd client disposableClient store servers stops jobs trace
       next_loc next_cid next_pid] in H.

(** ** Strings *)

Lemma trimStart_whitespace (s : jstring) :
  forallb isWhiteSpace s = true -> trimStart s = [].
Proof.
  induction s as [|c s IH]; simpl; [reflexivity|].
  intros H. apply andb_true_iff in H as [Hc Hs].
  rewrite Hc. exact (IH Hs).
Qed.

Lemma trim_whitespace (s : jstring) :
  forallb isWhiteSpace s = true -> trim s = [].
Proof.
  intros H. unfold trim. rewrite (trimStart_whitespace s H). reflexivity.
Qed.

Example trim_options :
  trim (js " --debug-log-file=/tmp/s.log ") = js "--debug-log-file=/tmp/s.log".
Proof. vm_compute. reflexivity. Qed.

Example trim_keeps_inner_space : trim (js "  -a  -b ") = js "-a  -b".
Proof. vm_compute. reflexivity. Qed.

Example trim_line_ends : trim [9; 10; 13; 160; 65279; 8232]%N = [].
Proof. vm_compute. reflexivity. Qed.

(** ** The command builder *)

(** With a string for [commandOptions] the builder returns, and what it
    returns is made of four parts. *)
Lemma buildCommand_shape (cfg : Config) (s : jstring) :
  commandOptions cfg = JStr s ->
  buildCommand cfg =
    Ok (launcher cfg ++ [JStr (js "tc"); JStr (js "--lsp")]
        ++ [optionsToken s] ++ watchmanToken cfg).
Proof.
  intros Hs. unfold buildCommand, launcher, optionsToken, watchmanToken, js_or.
  rewrite Hs. cbn [js_trim rbind].
  destruct (truthy (useBundler cfg)), (truthy (useWatchman cfg)),
    (trim s) as [|c t]; cbn [truthy negb app]; reflexivity.
Qed.

Example buildCommand_default :
  buildCommand defaultConfig =
    Ok [JStr (js "srb"); JStr (js "tc"); JStr (js "--lsp");
        enableExperimental; disableWatchman].
Proof. reflexivity. Qed.

Example buildCommand_bundler :
  buildCommand bundlerConfig =
    Ok [JStr (js "bin/bundle"); JStr (js "exec"); JStr (js "srb");
        JStr (js "tc"); JStr (js "--lsp");
        JStr (js "--debug-log-file=/tmp/s.log")].
Proof. vm_compute. reflexivity. Qed.

(** C2: for every combination of settings (with a string for
    [commandOptions], the others arbitrary) the argv starts with
    [bundlerPath] or "bundle", then "exec" and "srb", when [useBundler] is
    set, and otherwise with [commandPath] or "srb" alone; "tc" and "--lsp"
    come right after that prefix. *)
Theorem buildCommand_prefix (cfg : Config) (s : jstring) :
  commandOptions cfg = JStr s ->
  exists rest,
    buildCommand cfg =
      Ok ((if truthy (useBundler cfg)
           then [if truthy (bundlerPath cfg) then bundlerPath cfg
                 else JStr (js "bundle");
                 JStr (js "exec"); JStr (js "srb")]
           else [if truthy (commandPath cfg) then commandPath cfg
                 else JStr (js "srb")])
          ++ [JStr (js "tc"); JStr (js "--lsp")] ++ rest).
Proof.
  intros Hs. exists ([optionsToken s] ++ watchmanToken cfg).
  exact (buildCommand_shape cfg s Hs).
Qed.

Lemma buildCommand_prefix_witness :
  exists rest,
    buildCommand bundlerConfig =
      Ok ([JStr (js "bin/bundle"); JStr (js "exec"); JStr (js "srb")]
          ++ [JStr (js "tc"); JStr (js "--lsp")] ++ rest).
Proof.
  exact (buildCommand_prefix bundlerConfig (js " --debug-log-file=/tmp/s.log ")
           eq_refl).
Defined.

(** C5: a [commandOptions] made of white space only gives the argv of the
    empty [commandOptions], and in that argv the token after "--lsp" is the
    default flag, not an empty string. *)
Theorem whitespace_options_as_empty (cfg : Config) (ws : jstring) :
  forallb isWhiteSpace ws = true ->
  buildCommand (setOptions cfg (JStr ws)) = buildCommand (setOptions cfg (JStr []))
  /\ buildCommand (setOptions cfg (JStr ws)) =
       Ok (launcher cfg ++ [JStr (js "tc"); JStr (js "--lsp")]
           ++ [enableExperimental] ++ watchmanToken cfg).
Proof.
  intros Hws.
  rewrite (buildCommand_shape (setOptions cfg (JStr ws)) ws eq_refl).
  rewrite (buildCommand_shape (setOptions cfg (JStr [])) [] eq_refl).
  unfold optionsToken. rewrite (trim_whitespace ws Hws).
  split; reflexivity.
Qed.

Lemma whitespace_options_as_empty_witness :
  buildCommand (setOptions defaultConfig (JStr (js "  ")))
    = buildCommand (setOptions defaultConfig (JStr []))
  /\ buildCommand (setOptions defaultConfig (JStr (js "  "))) =
       Ok ([JStr (js "srb")] ++ [JStr (js "tc"); JStr (js "--lsp")]
           ++ [enableExperimental] ++ [disableWatchman]).
Proof.
  exact (whitespace_options_as_empty defaultConfig (js "  ") eq_refl).
Defined.

(** C6, as stated, fails: with [useWatchman] true the flag is in the argv
    when the user typed it into [commandOptions]. *)
Lemma flag_present_with_watchman :
  truthy (useWatchman flagInOptions) = true
  /\ buildCommand flagInOptions =
       Ok [JStr (js "srb"); JStr (js "tc"); JStr (js "--lsp"); disableWatchman]
  /\ disableWatchman ∈ [JStr (js "srb"); JStr (js "tc"); JStr (js "--lsp");
                        disableWatchman].
Proof.
  split; [reflexivity|]. split; [vm_compute; reflexivity|].
  rewrite !elem_of_cons. do 3 right. left. reflexivity.
Qed.

(** C6, amended: the builder appends "--disable-watchman" as the last token
    exactly when [useWatchman] is falsy; when it is truthy nothing follows
    the options token, so the flag is in the argv only if one of the
    configured tokens is that very string. *)
Theorem disable_watchman_appended (cfg : Config) (s : jstring) :
  commandOptions cfg = JStr s ->
  exists argv,
    buildCommand cfg = Ok argv
    /\ (truthy (useWatchman cfg) = false ->
        last argv = Some disableWatchman /\ disableWatchman ∈ argv)
    /\ (truthy (useWatchman cfg) = true ->
        last argv = Some (optionsToken s)
        /\ (disableWatchman ∈ argv ->
            disableWatchman ∈ launcher cfg \/ JStr (trim s) = disableWatchman)).
Proof.
  intros Hs. eexists. split; [exact (buildCommand_shape cfg s Hs)|].
  unfold watchmanToken. split; intros Hw; rewrite Hw.
  - split.
    + rewrite !app_assoc. apply last_snoc.
    + rewrite !elem_of_app. do 3 right. apply list_elem_of_singleton. reflexivity.
  - rewrite app_nil_r. split.
    + rewrite app_assoc. apply last_snoc.
    + rewrite !elem_of_app. intros [H|[H|H]]; [left; exact H| |].
      * exfalso. apply elem_of_cons in H as [H|H]; [discriminate H|].
        apply elem_of_cons in H as [H|H]; [discriminate H|].
        inversion H.
      * right. apply list_elem_of_singleton in H. unfold optionsToken in H.
        destruct (trim s) as [|c t]; [discriminate H|]. symmetry. exact H.
Qed.

Lemma disable_watchman_appended_witness :
  exists argv,
    buildCommand defaultConfig = Ok argv
    /\ (truthy (useWatchman defaultConfig) = false ->
        last argv = Some disableWatchman /\ disableWatchman ∈ argv)
    /\ (truthy (useWatchman defaultConfig) = true ->
        last argv = Some (optionsToken [])
        /\ (disableWatchman ∈ argv ->
            disableWatchman ∈ launcher defaultConfig
            \/ JStr (trim []) = disableWatchman)).
Proof.
  exact (disable_watchman_appended defaultConfig [] eq_refl).
Defined.

(** ** The spawner *)

Example darwin_is_unix : isUnixLike zshMac = true.
Proof. reflexivity. Qed.

Example win32_is_not_unix : isUnixLike windows = false.
Proof. reflexivity. Qed.

Example fish_is_not_bash : isBashOrZsh (resolveShell fishLinux) = false.
Proof. reflexivity. Qed.

Example missing_shell_is_bash :
  isBashOrZsh (resolveShell {| platform := js "linux"; env_shell := None |}) = true.
Proof. reflexivity. Qed.

(** The options this file passes to the spawner hold a working directory
    exactly when they hold a truthy one. *)
Lemma commonOptions_cwd (workspace : option jstring) :
  (commonOptions workspace !! "cwd" = None
   /\ truthy (prop (commonOptions workspace) "cwd") = false)
  \/ (exists dir, commonOptions workspace !! "cwd" = Some (JStr dir)
                  /\ workspace = Some dir
                  /\ truthy (prop (commonOptions workspace) "cwd") = true).
Proof.
  destruct workspace as [[|c p]|]; [left|right|left]; cbn;
    try (split; reflexivity).
  exists (c :: p). repeat split; reflexivity.
Qed.

Section SpawnerFacts.

Variable quote : jsval -> result jstring.

(** The direct path on a non-empty array. *)
Lemma spawnWithBash_direct (host : Host) (cmd : loc) (opts : jsobj) (h : heap)
    (program : jsval) (args : list jsval) :
  isUnixLike host = false \/ isBashOrZsh (resolveShell host) = false ->
  h !! cmd = Some (program :: args) ->
  spawnWithBash quote host cmd opts h
    = (Ok (CrossSpawn program args opts), <[cmd := args]> h).
Proof.
  intros Hdirect Hcmd. unfold spawnWithBash, deref.
  rewrite Hcmd. cbn [from_option id shift].
  rewrite lookup_insert_eq. cbn [from_option id].
  destruct Hdirect as [Hos|Hsh].
  - rewrite Hos. reflexivity.
  - rewrite Hsh. destruct (isUnixLike host); reflexivity.
Qed.

(** The shell path. *)
Lemma spawnWithBash_shell (host : Host) (cmd : loc) (opts : jsobj) (h : heap) :
  isUnixLike host = true ->
  isBashOrZsh (resolveShell host) = true ->
  spawnWithBash quote host cmd opts h
    = (rbind (shellEscape quote (deref h cmd)) (fun shellCmd =>
       rbind (if truthy (prop opts "cwd")
              then rbind (shellEscape quote [JStr (js "cd"); prop opts "cwd"])
                     (fun cd => Ok (cd ++ js " && " ++ shellCmd))
              else Ok shellCmd) (fun shellCmd =>
       Ok (ChildProcessSpawn (resolveShell host)
             [js "-l"; js "-c"; shellCmd]
             (opts ∪ {["shell" := JStr (resolveShell host)]})))), h).
Proof.
  intros Hos Hsh. unfold spawnWithBash. rewrite Hos, Hsh. reflexivity.
Qed.

(** C3: on a host whose platform matches darwin or linux and whose shell
    ends in bash or zsh, [child_process.spawn] is called on the shell with
    the arguments "-l", "-c" and one command string.  That string is the
    quoted tokens of the argv joined with spaces; when the options hold a
    working directory, the quoted "cd" and directory, joined with a space,
    and " && " come in front of it. *)
Theorem login_shell_spawn (host : Host) (cmd : loc) (opts : jsobj) (h : heap)
    (argv : list jsval) (qs : list jstring) :
  isUnixLike host = true ->
  isBashOrZsh (resolveShell host) = true ->
  h !! cmd = Some argv ->
  quoteAll quote argv = Ok qs ->
  (truthy (prop opts "cwd") = false ->
   spawnWithBash quote host cmd opts h
     = (Ok (ChildProcessSpawn (resolveShell host)
              [js "-l"; js "-c"; join (js " ") qs]
              (opts ∪ {["shell" := JStr (resolveShell host)]})), h))
  /\ (forall qcd qdir,
      truthy (prop opts "cwd") = true ->
      quote (JStr (js "cd")) = Ok qcd ->
      quote (prop opts "cwd") = Ok qdir ->
      spawnWithBash quote host cmd opts h
        = (Ok (ChildProcessSpawn (resolveShell host)
                 [js "-l"; js "-c";
                  join (js " ") [qcd; qdir] ++ js " && " ++ join (js " ") qs]
                 (opts ∪ {["shell" := JStr (resolveShell host)]})), h)).
Proof.
  intros Hos Hsh Hcmd Hqs.
  rewrite (spawnWithBash_shell host cmd opts h Hos Hsh).
  unfold deref, shellEscape. rewrite Hcmd. cbn [from_option id]. rewrite Hqs.
  cbn [rbind]. split.
  - intros Hcwd. rewrite Hcwd. reflexivity.
  - intros qcd qdir Hcwd Hcd Hdir. rewrite Hcwd.
    cbn [quoteAll]. rewrite Hcd, Hdir. reflexivity.
Qed.

(** C7: on a host that is not darwin or linux, or whose shell is neither
    bash nor zsh, [crossSpawn] is called with the first token of the argv
    as the program and the other tokens, as they are, as its arguments. *)
Theorem direct_spawn (host : Host) (cmd : loc) (opts : jsobj) (h : heap)
    (program : jsval) (args : list jsval) :
  isUnixLike host = false \/ isBashOrZsh (resolveShell host) = false ->
  h !! cmd = Some (program :: args) ->
  spawnWithBash quote host cmd opts h
    = (Ok (CrossSpawn program args opts), <[cmd := args]> h).
Proof. exact (spawnWithBash_direct host cmd opts h program args). Qed.

(** C9: on the direct path the array itself loses its first token, so a
    second call on the same array of two or more tokens runs the second
    token as the program. *)
Theorem second_call_runs_second_token (host : Host) (cmd : loc) (opts : jsobj) (h : heap)
    (first second : jsval) (rest : list jsval) :
  isUnixLike host = false \/ isBashOrZsh (resolveShell host) = false ->
  h !! cmd = Some (first :: second :: rest) ->
  exists h1,
    spawnWithBash quote host cmd opts h
      = (Ok (CrossSpawn first (second :: rest) opts), h1)
    /\ h1 !! cmd = Some (second :: rest)
    /\ spawnWithBash quote host cmd opts h1
         = (Ok (CrossSpawn second rest opts), <[cmd := rest]> h1).
Proof.
  intros Hdirect Hcmd. exists (<[cmd := second :: rest]> h).
  split; [exact (spawnWithBash_direct host cmd opts h _ _ Hdirect Hcmd)|].
  assert (Hcmd1 : <[cmd := second :: rest]> h !! cmd = Some (second :: rest))
    by apply lookup_insert_eq.
  split; [exact Hcmd1|].
  exact (spawnWithBash_direct host cmd opts _ _ _ Hdirect Hcmd1).
Qed.

End SpawnerFacts.

Lemma login_shell_spawn_witness :
  spawnWithBash quotePlain zshMac 0 (commonOptions (Some (js "/proj")))
      {[0 := srbArgv]}
    = (Ok (ChildProcessSpawn (js "/bin/zsh")
             [js "-l"; js "-c"; js "cd /proj && srb tc --lsp"]
             (commonOptions (Some (js "/proj")) ∪ {["shell" := JStr (js "/bin/zsh")]})),
       {[0 := srbArgv]})
  /\ spawnWithBash quotePlain zshMac 0 ∅ {[0 := srbArgv]}
    = (Ok (ChildProcessSpawn (js "/bin/zsh")
             [js "-l"; js "-c"; js "srb tc --lsp"]
             (∅ ∪ {["shell" := JStr (js "/bin/zsh")]})),
       {[0 := srbArgv]}).
Proof.
  split.
  - exact (proj2 (login_shell_spawn quotePlain zshMac 0
                    (commonOptions (Some (js "/proj"))) {[0 := srbArgv]} srbArgv
                    [js "srb"; js "tc"; js "--lsp"]
                    eq_refl eq_refl eq_refl eq_refl)
             (js "cd") (js "/proj") eq_refl eq_refl eq_refl).
  - exact (proj1 (login_shell_spawn quotePlain zshMac 0 ∅ {[0 := srbArgv]} srbArgv
                    [js "srb"; js "tc"; js "--lsp"]
                    eq_refl eq_refl eq_refl eq_refl) eq_refl).
Defined.

Lemma direct_spawn_witness :
  spawnWithBash quotePlain fishLinux 0 ∅ {[0 := srbArgv]}
    = (Ok (CrossSpawn (JStr (js "srb")) [JStr (js "tc"); JStr (js "--lsp")] ∅),
       <[0 := [JStr (js "tc"); JStr (js "--lsp")]]> {[0 := srbArgv]})
  /\ spawnWithBash quotePlain windows 0 ∅ {[0 := srbArgv]}
    = (Ok (CrossSpawn (JStr (js "srb")) [JStr (js "tc"); JStr (js "--lsp")] ∅),
       <[0 := [JStr (js "tc"); JStr (js "--lsp")]]> {[0 := srbArgv]}).
Proof.
  split.
  - exact (direct_spawn quotePlain fishLinux 0 ∅ {[0 := srbArgv]} _ _
             (or_intror eq_refl) eq_refl).
  - exact (direct_spawn quotePlain windows 0 ∅ {[0 := srbArgv]} _ _
             (or_introl eq_refl) eq_refl).
Defined.

Lemma second_call_runs_second_token_witness :
  exists h1,
    spawnWithBash quotePlain windows 0 ∅ {[0 := srbArgv]}
      = (Ok (CrossSpawn (JStr (js "srb")) [JStr (js "tc"); JStr (js "--lsp")] ∅), h1)
    /\ h1 !! 0 = Some [JStr (js "tc"); JStr (js "--lsp")]
    /\ spawnWithBash quotePlain windows 0 ∅ h1
         = (Ok (CrossSpawn (JStr (js "tc")) [JStr (js "--lsp")] ∅),
            <[0 := [JStr (js "--lsp")]]> h1).
Proof.
  exact (second_call_runs_second_token quotePlain windows 0 ∅ {[0 := srbArgv]} _ _ _
           (or_introl eq_refl) eq_refl).
Defined.

(** ** Starting *)

(** [startLanguageServer] ends in one of three ways: the settings cannot be
    read, the marker file is missing, or a client is made and started. *)
Lemma startLanguageServer_cases (ed : Editor) (w : World) :
  match buildCommand (vsconfig ed) with
  | Throw e => startLanguageServer ed w = (Throw e, w)
  | Ok cmd =>
      if existsSync ed (markerPath (firstWorkspace ed))
      then startLanguageServer ed w = (Ok tt, startedWorld ed cmd w)
      else startLanguageServer ed w = emit (EvInfo notFound) w
  end.
Proof.
  unfold startLanguageServer, bind, lift.
  destruct (buildCommand (vsconfig ed)) as [cmd|e]; [|reflexivity].
  destruct (existsSync ed (markerPath (firstWorkspace ed))); reflexivity.
Qed.

Lemma startLanguageServer_trace (ed : Editor) (w : World) :
  exists evs, trace (snd (startLanguageServer ed w)) = trace w ++ evs.
Proof.
  pose proof (startLanguageServer_cases ed w) as H.
  destruct (buildCommand (vsconfig ed)) as [cmd|e].
  - destruct (existsSync ed (markerPath (firstWorkspace ed))); rewrite H.
    + exists [EvWatcher watched; EvNew (next_cid w); EvStart (next_cid w)].
      cbn [snd startedWorld trace]. rewrite <- !app_assoc. reflexivity.
    + exists [EvInfo notFound]. reflexivity.
  - rewrite H. exists []. cbn [snd]. rewrite app_nil_r. reflexivity.
Qed.

Lemma startLanguageServer_consistent (ed : Editor) (w : World) :
  consistent w -> consistent (snd (startLanguageServer ed w)).
Proof.
  intros Hw. pose proof (startLanguageServer_cases ed w) as H.
  destruct (buildCommand (vsconfig ed)) as [cmd|e]; [|rewrite H; exact Hw].
  destruct (existsSync ed (markerPath (firstWorkspace ed))); rewrite H.
  - destruct Hw as [Hh Hk Hf Hs Hp].
    split; cbn [snd startedWorld client disposableClient trace servers stops
                next_cid next_pid].
    + reflexivity.
    + intros c [= <-]. rewrite !elem_of_app, !list_elem_of_singleton. auto.
    + discriminate.
    + intros c so Hc. destruct (decide (next_cid w = c)) as [<-|Hne]; [lia|].
      rewrite lookup_insert_ne in Hc by exact Hne.
      specialize (Hs c so Hc). lia.
    + exact Hp.
  - destruct Hw as [Hh Hk Hf Hs Hp].
    split; cbn [snd emit client disposableClient trace servers stops
                next_cid next_pid]; auto.
    + intros c Hc. rewrite elem_of_app. left. auto.
    + intros Hc c. rewrite elem_of_app, list_elem_of_singleton.
      intros [Hin|Heq]; [exact (Hf Hc c Hin)|discriminate Heq].
Qed.

(** ** One action at a time *)

(** Events that do not make a client leave consistency alone, and so does
    any change to the heap and to the job queue. *)
Lemma consistent_grow (w w' : World) (evs : list event) :
  client w' = client w ->
  disposableClient w' = disposableClient w ->
  servers w' = servers w ->
  next_cid w' = next_cid w ->
  stops w' = stops w ->
  next_pid w' = next_pid w ->
  trace w' = trace w ++ evs ->
  (forall c, EvNew c ∉ evs) ->
  consistent w -> consistent w'.
Proof.
  intros Hc Hd Hs Hn Hst Hp Ht Hevs [Hh Hk Hf Hso Hpo].
  split.
  - rewrite Hc, Hd. exact Hh.
  - intros c. rewrite Hc, Ht, elem_of_app. auto.
  - rewrite Hc, Ht. intros Hnone c. rewrite elem_of_app.
    intros [Hin|Hin]; [exact (Hf Hnone c Hin)|exact (Hevs c Hin)].
  - rewrite Hs, Hn. exact Hso.
  - rewrite Hst, Hp. exact Hpo.
Qed.

Lemma no_EvNew_nil (c : cid) : EvNew c ∉ @nil event.
Proof. apply not_elem_of_nil. Qed.

Lemma no_EvNew_single (e : event) :
  (forall c, e <> EvNew c) -> forall c, EvNew c ∉ [e].
Proof.
  intros He c Hin. apply list_elem_of_singleton in Hin. exact (He c (eq_sym Hin)).
Qed.

Lemma clientStop_consistent (waiting : bool) (w : World) :
  consistent w -> consistent (snd (clientStop waiting w)).
Proof.
  intros Hw. unfold clientStop. destruct (client w) as [c|] eqn:Hc; [|exact Hw].
  destruct Hw as [Hh Hk Hf Hso Hpo].
  split; cbn [snd client disposableClient trace servers stops next_cid next_pid].
  - congruence.
  - intros c' [= <-]. rewrite elem_of_app. left. exact (Hk c Hc).
  - discriminate.
  - exact Hso.
  - intros p b Hp. destruct (decide (next_pid w = p)) as [<-|Hne]; [lia|].
    rewrite lookup_insert_ne in Hp by exact Hne.
    specialize (Hpo p b Hp). lia.
Qed.

Lemma clientStop_trace (waiting : bool) (w : World) :
  exists evs, trace (snd (clientStop waiting w)) = trace w ++ evs.
Proof.
  unfold clientStop. destruct (client w) as [c|].
  - exists [EvStop c (next_pid w)]. reflexivity.
  - exists []. cbn [snd]. rewrite app_nil_r. reflexivity.
Qed.

Lemma enqueue_consistent (j : job) (w : World) :
  consistent w -> consistent (snd (enqueue j w)).
Proof.
  apply (consistent_grow w _ []); try reflexivity.
  - cbn [snd enqueue trace]. rewrite app_nil_r. reflexivity.
  - exact no_EvNew_nil.
Qed.

Lemma emit_consistent (e : event) (w : World) :
  (forall c, e <> EvNew c) -> consistent w -> consistent (snd (emit e w)).
Proof.
  intros He. apply (consistent_grow w _ [e]); try reflexivity.
  exact (no_EvNew_single e He).
Qed.

Lemma restartLanguageServer_consistent (ed : Editor) (w : World) :
  consistent w -> consistent (snd (restartLanguageServer ed w)).
Proof.
  intros Hw. unfold restartLanguageServer, bind.
  destruct (disposableClient w) as [d|].
  - pose proof (clientStop_consistent true w Hw) as H.
    destruct (clientStop true w) as [[p|e] w1]; exact H.
  - pose proof (startLanguageServer_consistent ed w Hw) as H.
    destruct (startLanguageServer ed w) as [[[]|e] w1]; cbn [snd] in H |- *.
    + exact (enqueue_consistent JobRestarted w1 H).
    + exact H.
Qed.

Lemma restartLanguageServer_trace (ed : Editor) (w : World) :
  exists evs, trace (snd (restartLanguageServer ed w)) = trace w ++ evs.
Proof.
  unfold restartLanguageServer, bind.
  destruct (disposableClient w) as [d|].
  - pose proof (clientStop_trace true w) as H.
    destruct (clientStop true w) as [[p|e] w1]; exact H.
  - pose proof (startLanguageServer_trace ed w) as H.
    destruct (startLanguageServer ed w) as [[[]|e] w1]; exact H.
Qed.

Lemma resumeRestart_consistent (p : pid) (ed : Editor) (w : World) :
  consistent w -> consistent (snd (resumeRestart p ed w)).
Proof.
  intros Hw. unfold resumeRestart, bind, disposeClient.
  pose proof (emit_consistent (EvResume p) w ltac:(discriminate) Hw) as Hw0.
  world_simpl in Hw0. world_simpl.
  destruct (disposableClient w) as [d|]; [|exact Hw0].
  world_simpl.
  pose proof (startLanguageServer_consistent ed _
                (emit_consistent (EvDispose d) _ ltac:(discriminate) Hw0)) as H.
  world_simpl in H.
  destruct (startLanguageServer ed _) as [[[]|e] w1]; cbn [snd] in H |- *.
  - exact (enqueue_consistent JobRestarted w1 H).
  - exact H.
Qed.

(** The callback begins with the disposal of the current handle. *)
Lemma resumeRestart_trace (p : pid) (ed : Editor) (w : World) (d : cid) :
  disposableClient w = Some d ->
  exists evs,
    trace (snd (resumeRestart p ed w))
      = trace w ++ EvResume p :: EvDispose d :: evs.
Proof.
  intros Hd. unfold resumeRestart, bind, disposeClient.
  world_simpl. rewrite Hd. world_simpl.
  match goal with
  | |- context [startLanguageServer ed ?w0] =>
      pose proof (startLanguageServer_trace ed w0) as [evs H];
      destruct (startLanguageServer ed w0) as [[[]|e] w1]
  end;
    exists evs; world_simpl in H; world_simpl;
    rewrite H, <- !app_assoc; reflexivity.
Qed.

Lemma settle_consistent (p : pid) (ok : bool) (w : World) :
  consistent w -> consistent (snd (settle p ok w)).
Proof.
  intros Hw. unfold settle. destruct (stops w !! p) as [waiting|]; [|exact Hw].
  destruct Hw as [Hh Hk Hf Hso Hpo].
  split; cbn [snd client disposableClient trace servers stops next_cid next_pid].
  - exact Hh.
  - intros c Hc. rewrite elem_of_app. left. exact (Hk c Hc).
  - intros Hnone c. rewrite elem_of_app, list_elem_of_singleton.
    intros [Hin|Heq]; [exact (Hf Hnone c Hin)|destruct ok; discriminate Heq].
  - exact Hso.
  - intros q b Hq. apply lookup_delete_Some in Hq as [_ Hq]. exact (Hpo q b Hq).
Qed.

Lemma settle_trace (p : pid) (ok : bool) (w : World) :
  exists evs, trace (snd (settle p ok w)) = trace w ++ evs.
Proof.
  unfold settle. destruct (stops w !! p) as [waiting|].
  - eexists. reflexivity.
  - exists []. cbn [snd]. rewrite app_nil_r. reflexivity.
Qed.

Lemma runJob_consistent (ed : Editor) (w : World) :
  consistent w -> consistent (snd (runJob ed w)).
Proof.
  intros Hw. unfold runJob, bind, popJob.
  destruct (jobs w) as [|[p|] js']; [exact Hw| |].
  - apply resumeRestart_consistent.
    revert Hw. apply (consistent_grow w _ []); try reflexivity.
    + cbn [trace]. rewrite app_nil_r. reflexivity.
    + exact no_EvNew_nil.
  - apply emit_consistent; [discriminate|].
    revert Hw. apply (consistent_grow w _ []); try reflexivity.
    + cbn [trace]. rewrite app_nil_r. reflexivity.
    + exact no_EvNew_nil.
Qed.

Lemma runJob_trace (ed : Editor) (w : World) :
  exists evs, trace (snd (runJob ed w)) = trace w ++ evs.
Proof.
  unfold runJob, bind, popJob.
  destruct (jobs w) as [|[p|] js'].
  - exists []. cbn [snd ret]. rewrite app_nil_r. reflexivity.
  - unfold resumeRestart, bind, disposeClient. world_simpl.
    destruct (disposableClient w) as [d|].
    + world_simpl.
      match goal with
      | |- context [startLanguageServer ed ?w0] =>
          pose proof (startLanguageServer_trace ed w0) as [evs H];
          destruct (startLanguageServer ed w0) as [[[]|e] w1]
      end;
        exists (EvResume p :: EvDispose d :: evs); world_simpl in H; world_simpl;
        rewrite H, <- !app_assoc; reflexivity.
    + exists [EvResume p]. reflexivity.
  - exists [EvInfo restarted]. reflexivity.
Qed.

Lemma deactivate_consistent (w : World) :
  consistent w -> consistent (snd (deactivate w)).
Proof.
  intros Hw. unfold deactivate, bind.
  destruct (client w) as [c|] eqn:Hc; [|exact Hw].
  pose proof (clientStop_consistent false w Hw) as H.
  destruct (clientStop false w) as [[p|e] w1]; exact H.
Qed.

Lemma deactivate_trace (w : World) :
  exists evs, trace (snd (deactivate w)) = trace w ++ evs.
Proof.
  unfold deactivate, bind.
  destruct (client w) as [c|] eqn:Hc.
  - pose proof (clientStop_trace false w) as H.
    destruct (clientStop false w) as [[p|e] w1]; exact H.
  - exists []. cbn [snd ret]. rewrite app_nil_r. reflexivity.
Qed.

Section LifecycleFacts.

Variable quote : jsval -> result jstring.

(** A launch spawns at most one process, for the client that was asked,
    and touches nothing but the heap. *)
Lemma launch_cases (c : cid) (host : Host) (w : World) :
  exists w',
    snd (launch quote c host w) = w'
    /\ client w' = client w /\ disposableClient w' = disposableClient w
    /\ servers w' = servers w /\ next_cid w' = next_cid w
    /\ stops w' = stops w /\ next_pid w' = next_pid w /\ jobs w' = jobs w
    /\ (trace w' = trace w
        \/ exists call, is_Some (servers w !! c)
                        /\ trace w' = trace w ++ [EvSpawn c call]).
Proof.
  unfold launch. destruct (servers w !! c) as [so|] eqn:Hso.
  - destruct (spawnWithBash quote host (cl_cmd so) (cl_env so) (store w))
      as [[call|e] h].
    + eexists. split; [reflexivity|]. cbn. repeat (split; [reflexivity|]).
      right. exists call. split; [eexists; reflexivity|reflexivity].
    + eexists. split; [reflexivity|]. cbn. repeat (split; [reflexivity|]).
      left. reflexivity.
  - exists w. repeat (split; [reflexivity|]). left. reflexivity.
Qed.

Lemma launch_consistent (c : cid) (host : Host) (w : World) :
  consistent w -> consistent (snd (launch quote c host w)).
Proof.
  destruct (launch_cases c host w)
    as (w' & -> & Hc & Hd & Hs & Hn & Hst & Hp & _ & [Ht|(call & _ & Ht)]).
  - apply (consistent_grow w w' []); try assumption.
    + rewrite app_nil_r. exact Ht.
    + exact no_EvNew_nil.
  - apply (consistent_grow w w' [EvSpawn c call]); try assumption.
    apply no_EvNew_single. discriminate.
Qed.

Lemma step_consistent (a : action) (w : World) :
  consistent w -> consistent (step quote a w).
Proof.
  destruct a; cbn [step].
  - apply restartLanguageServer_consistent.
  - apply settle_consistent.
  - apply runJob_consistent.
  - apply launch_consistent.
  - apply deactivate_consistent.
Qed.

Lemma step_trace (a : action) (w : World) :
  exists evs, trace (step quote a w) = trace w ++ evs.
Proof.
  destruct a; cbn [step].
  - apply restartLanguageServer_trace.
  - apply settle_trace.
  - apply runJob_trace.
  - destruct (launch_cases c host w)
      as (w' & -> & _ & _ & _ & _ & _ & _ & _ & [Ht|(call & _ & Ht)]).
    + exists []. rewrite app_nil_r. exact Ht.
    + exists [EvSpawn c call]. exact Ht.
  - apply deactivate_trace.
Qed.

Lemma run_snoc (sched : list action) (a : action) (w : World) :
  run quote (sched ++ [a]) w = step quote a (run quote sched w).
Proof. unfold run. rewrite foldl_snoc. reflexivity. Qed.

Lemma run_consistent (sched : list action) (w : World) :
  consistent w -> consistent (run quote sched w).
Proof.
  intros Hw. induction sched as [|a sched IH] using rev_ind; [exact Hw|].
  rewrite run_snoc. apply step_consistent. exact IH.
Qed.

Lemma init_consistent : consistent init.
Proof.
  split; cbn; try congruence.
  - intros _ c. apply not_elem_of_nil.
  - intros c so H. rewrite lookup_empty in H. discriminate H.
  - intros p b H. rewrite lookup_empty in H. discriminate H.
Qed.

Lemma reachable_consistent (w : World) : reachable quote w -> consistent w.
Proof.
  intros (ed & sched & ->). apply run_consistent.
  apply startLanguageServer_consistent, init_consistent.
Qed.

End LifecycleFacts.

(** ** A restart under way *)

Lemma split_outside {A} (X Y e1 e2 : list A) (ev : A) :
  e1 ++ ev :: e2 = X ++ Y -> ev ∉ X -> exists Y1, e1 = X ++ Y1.
Proof.
  revert e1. induction X as [|x X IH]; intros e1 Heq Hnot.
  - exists e1. reflexivity.
  - destruct e1 as [|y e1]; cbn in Heq; injection Heq as Hhd Htl.
    + exfalso. apply Hnot. rewrite Hhd. apply elem_of_cons. left. reflexivity.
    + destruct (IH e1 Htl) as [Y1 ->].
      * intros Hin. apply Hnot. apply elem_of_cons. right. exact Hin.
      * exists Y1. rewrite Hhd. reflexivity.
Qed.

(** From [underWay] to the order of events: whatever belongs to a new start
    comes after the end of the handshake and after the disposal. *)
Lemma underWay_ordered (n c : cid) (p : pid) (base : list event) (w : World) :
  underWay n c p base w ->
  exists ext,
    trace w = base ++ ext
    /\ forall e1 ev e2,
         ext = e1 ++ ev :: e2 -> startsNew n ev = true ->
         exists a b, e1 = a ++ EvStopDone p :: b /\ EvDispose c ∈ b.
Proof.
  intros (ext & Ht & H). exists ext. split; [exact Ht|].
  intros e1 ev e2 Hsplit Hnew.
  destruct H as [(X & Y & a & b & -> & HX & -> & Hb)|(Hext & _)].
  - destruct (split_outside _ Y e1 e2 ev (eq_sym Hsplit)) as [Y1 ->].
    + intros Hin. rewrite Forall_forall in HX. specialize (HX ev Hin). congruence.
    + exists a, (b ++ Y1). split.
      * rewrite <- app_assoc. reflexivity.
      * apply elem_of_app. left. exact Hb.
  - exfalso. rewrite Forall_forall in Hext.
    assert (Hin : ev ∈ ext).
    { rewrite Hsplit. apply elem_of_app. right. apply elem_of_cons. left. reflexivity. }
    specialize (Hext ev Hin). congruence.
Qed.

Section RestartFacts.

Variable quote : jsval -> result jstring.

(** Once the disposal is in the trace, anything may follow. *)
Lemma underWay_done (n c : cid) (p : pid) (base : list event) (w w' : World)
    (X Y a b evs : list event) :
  trace w = base ++ X ++ Y ->
  Forall (fun ev => startsNew n ev = false) X ->
  X = a ++ EvStopDone p :: b ->
  EvDispose c ∈ b ->
  trace w' = trace w ++ evs ->
  underWay n c p base w'.
Proof.
  intros Ht HX Ha Hb Ht'. exists (X ++ Y ++ evs). split.
  - rewrite Ht', Ht, <- !app_assoc. reflexivity.
  - left. exists X, (Y ++ evs), a, b. auto.
Qed.

(** While nothing of a new start has happened, an action other than a
    second restart keeps it that way or runs the callback. *)
Lemma underWay_step (n c : cid) (p : pid) (base : list event)
    (a : action) (w : World) :
  isRestart a = false ->
  underWay n c p base w -> underWay n c p base (step quote a w).
Proof.
  intros Ha (ext & Ht & [(X & Y & a0 & b0 & -> & HX & Ha0 & Hb0)|H]).
  { destruct (step_trace quote a w) as [evs Hevs].
    exact (underWay_done n c p base w _ X Y a0 b0 evs Ht HX Ha0 Hb0 Hevs). }
  destruct H as (Hext & Hn & Hso & Hd & Hst & Hjobs).
  destruct a as [ed|q ok|ed|c' host|]; [discriminate Ha| | | |]; cbn [step].
  - (* the client settles a promise *)
    unfold settle. destruct (stops w !! q) as [waiting|] eqn:Hq.
    + cbn [snd]. eexists. split; [cbn [trace]; rewrite Ht, <- app_assoc; reflexivity|].
      right. cbn [next_cid servers disposableClient stops jobs].
      split; [|split; [exact Hn|split; [exact Hso|split; [exact Hd|split]]]].
      * apply Forall_app. split; [exact Hext|].
        apply Forall_singleton. destruct ok; reflexivity.
      * intros q' Hq'. apply lookup_delete_Some in Hq' as [_ Hq'].
        exact (Hst q' Hq').
      * intros q' Hin. rewrite elem_of_app.
        destruct ok, waiting; cbn [andb] in Hin;
          try (destruct (Hjobs q' Hin) as [-> Hdone]; split; [reflexivity|];
               left; exact Hdone).
        apply elem_of_app in Hin as [Hin|Hin].
        -- destruct (Hjobs q' Hin) as [-> Hdone]. split; [reflexivity|].
           left. exact Hdone.
        -- apply list_elem_of_singleton in Hin. injection Hin as ->.
           split; [exact (Hst q Hq)|].
           right. rewrite (Hst q Hq). apply list_elem_of_singleton. reflexivity.
    + cbn [snd]. exists ext. split; [exact Ht|]. right. auto 10.
  - (* a promise job runs *)
    unfold runJob, bind, popJob.
    destruct (jobs w) as [|[q|] js'] eqn:Hj.
    + cbn [snd ret]. exists ext. split; [exact Ht|]. right.
      rewrite Hj. auto 10.
    + match goal with
      | |- underWay _ _ _ _ (snd (resumeRestart q ed ?w0)) =>
          destruct (resumeRestart_trace q ed w0 c Hd) as [evs Hevs]
      end.
      cbn [trace] in Hevs.
      assert (Hdone : EvStopDone p ∈ ext).
      { apply (Hjobs q). apply elem_of_cons. left. reflexivity. }
      apply list_elem_of_split in Hdone as (a1 & b1 & Hsplit).
      exists ((ext ++ [EvResume q; EvDispose c]) ++ evs). split.
      * rewrite Hevs, Ht, <- !app_assoc. reflexivity.
      * left. exists (ext ++ [EvResume q; EvDispose c]), evs, a1,
                 (b1 ++ [EvResume q; EvDispose c]).
        split; [reflexivity|]. split; [|split].
        -- apply Forall_app. split; [exact Hext|].
           repeat constructor.
        -- rewrite Hsplit, <- app_assoc. reflexivity.
        -- apply elem_of_app. right. rewrite !elem_of_cons. auto.
    + cbn [emit snd]. exists (ext ++ [EvInfo restarted]). split.
      * cbn [trace]. rewrite Ht, <- app_assoc. reflexivity.
      * right. cbn [next_cid servers disposableClient stops jobs].
        split; [|split; [exact Hn|split; [exact Hso|split; [exact Hd|split]]]].
        -- apply Forall_app. split; [exact Hext|].
           apply Forall_singleton. reflexivity.
        -- exact Hst.
        -- intros q Hin.
           destruct (Hjobs q ltac:(apply elem_of_cons; right; exact Hin))
             as [-> Hdone].
           split; [reflexivity|]. apply elem_of_app. left. exact Hdone.
  - (* a client launches its server *)
    destruct (launch_cases quote c' host w)
      as (w' & -> & _ & Hd' & Hs' & Hn' & Hst' & _ & Hj' & Htr).
    destruct Htr as [Htr|(call & [so Hc'] & Htr)].
    + exists ext. split; [rewrite Htr; exact Ht|]. right.
      rewrite Hd', Hs', Hn', Hst', Hj'. auto 10.
    + exists (ext ++ [EvSpawn c' call]). split.
      * rewrite Htr, Ht, <- app_assoc. reflexivity.
      * right. rewrite Hd', Hs', Hn', Hst', Hj'.
        split; [|split; [exact Hn|split; [exact Hso|split; [exact Hd|split]]]].
        -- apply Forall_app. split; [exact Hext|].
           apply Forall_singleton. cbn [startsNew].
           apply bool_decide_eq_false. specialize (Hso c' so Hc'). lia.
        -- exact Hst.
        -- intros q Hin. destruct (Hjobs q Hin) as [-> Hdone].
           split; [reflexivity|]. apply elem_of_app. left. exact Hdone.
  - (* the editor unloads the extension *)
    unfold deactivate, bind, clientStop.
    destruct (client w) as [c'|] eqn:Hc.
    + cbn [snd ret]. exists (ext ++ [EvStop c' (next_pid w)]). split.
      * cbn [trace]. rewrite Ht, <- app_assoc. reflexivity.
      * right. cbn [next_cid servers disposableClient stops jobs].
        split; [|split; [exact Hn|split; [exact Hso|split; [exact Hd|split]]]].
        -- apply Forall_app. split; [exact Hext|].
           apply Forall_singleton. reflexivity.
        -- intros q Hq. apply Hst.
           destruct (decide (next_pid w = q)) as [<-|Hne].
           ++ rewrite lookup_insert_eq in Hq. discriminate Hq.
           ++ rewrite lookup_insert_ne in Hq by exact Hne. exact Hq.
        -- intros q Hin. destruct (Hjobs q Hin) as [-> Hdone].
           split; [reflexivity|]. apply elem_of_app. left. exact Hdone.
    + cbn [snd ret]. exists ext. split; [exact Ht|]. right. auto 10.
Qed.

Lemma underWay_run (n c : cid) (p : pid) (base : list event)
    (sched : list action) (w : World) :
  forallb (fun a => negb (isRestart a)) sched = true ->
  underWay n c p base w -> underWay n c p base (run quote sched w).
Proof.
  revert w. induction sched as [|a sched IH]; intros w Hs Hw; [exact Hw|].
  cbn [forallb] in Hs. apply andb_true_iff in Hs as [Ha Hs].
  apply negb_true_iff in Ha.
  exact (IH (step quote a w) Hs (underWay_step n c p base a w Ha Hw)).
Qed.

(** What the restart command does at once when a handle exists: it asks
    the client to stop and hangs its callback on the promise. *)
Lemma restart_with_handle (ed : Editor) (w : World) (c : cid) :
  consistent w ->
  disposableClient w = Some c ->
  exists w1,
    step quote (ActRestart ed) w = w1
    /\ trace w1 = trace w ++ [EvStop c (next_pid w)]
    /\ stops w1 = <[next_pid w := true]> (stops w)
    /\ jobs w1 = jobs w /\ servers w1 = servers w
    /\ next_cid w1 = next_cid w
    /\ client w1 = Some c /\ disposableClient w1 = Some c.
Proof.
  intros Hw Hd. cbn [step]. unfold restartLanguageServer, bind, clientStop.
  rewrite Hd. rewrite <- (same_handle w Hw), Hd. cbn [snd ret].
  eexists. split; [reflexivity|]. cbn. auto 10.
Qed.

(** The restart goes through: once the handshake has ended and the callback
    has run, with settings that can be read and the marker file in place,
    the trace has grown by exactly the stop, its end, the disposal and the
    start of a new client. *)
Lemma restart_completes (ed ed' : Editor) (w : World) (c : cid) (s : jstring) :
  consistent w ->
  disposableClient w = Some c ->
  jobs w = [] ->
  commandOptions (vsconfig ed') = JStr s ->
  existsSync ed' (markerPath (firstWorkspace ed')) = true ->
  let w' := run quote [ActSettle (next_pid w) true; ActJob ed']
              (step quote (ActRestart ed) w) in
  trace w' = trace w ++ [EvStop c (next_pid w); EvStopDone (next_pid w);
                         EvResume (next_pid w); EvDispose c; EvWatcher watched;
                         EvNew (next_cid w); EvStart (next_cid w)]
  /\ client w' = Some (next_cid w)
  /\ disposableClient w' = Some (next_cid w)
  /\ jobs w' = [JobRestarted].
Proof.
  intros Hw Hd Hj Hs Hmarker. cbn zeta. unfold run. cbn [foldl step].
  unfold restartLanguageServer, bind, clientStop.
  rewrite Hd. rewrite <- (same_handle w Hw), Hd. cbn [snd ret].
  unfold settle. cbn [stops]. rewrite lookup_insert_eq. cbn [snd andb].
  unfold runJob, bind, popJob. cbn [jobs]. rewrite Hj. cbn [app].
  unfold resumeRestart, bind, disposeClient. world_simpl.
  match goal with
  | |- context [startLanguageServer ed' ?w0] =>
      pose proof (startLanguageServer_cases ed' w0) as H
  end.
  rewrite (buildCommand_shape (vsconfig ed') s Hs), Hmarker in H.
  rewrite H. cbn. rewrite <- !app_assoc. auto.
Qed.

(** Restarts one at a time: a restart asked for while a handle exists and
    no other restart is under way starts nothing at once, it only asks the
    client [c] to stop.  Whatever happens next, short of a second restart
    command, every event of a new start -- the new file watcher, client,
    its start and any process spawned for it -- comes after the end of that
    stop handshake and after the disposal of the handle of [c]. *)
Lemma restart_serial_order (ed : Editor) (w : World) (c : cid)
    (sched : list action) :
  reachable quote w ->
  disposableClient w = Some c ->
  (forall q, stops w !! q <> Some true) ->
  (forall q, JobResume q ∉ jobs w) ->
  forallb (fun a => negb (isRestart a)) sched = true ->
  exists ext,
    trace (run quote sched (step quote (ActRestart ed) w))
      = trace w ++ EvStop c (next_pid w) :: ext
    /\ forall e1 ev e2,
         ext = e1 ++ ev :: e2 ->
         startsNew (next_cid w) ev = true ->
         exists a b, e1 = a ++ EvStopDone (next_pid w) :: b /\ EvDispose c ∈ b.
Proof.
  intros Hreach Hd Hstops Hjobs Hsched.
  pose proof (reachable_consistent quote w Hreach) as Hw.
  destruct (restart_with_handle ed w c Hw Hd)
    as (w1 & <- & Ht1 & Hst1 & Hj1 & Hs1 & Hn1 & _ & Hd1).
  assert (H1 : underWay (next_cid w) c (next_pid w)
                 (trace w ++ [EvStop c (next_pid w)])
                 (step quote (ActRestart ed) w)).
  { exists []. split; [rewrite app_nil_r; exact Ht1|]. right.
    split; [apply Forall_nil_2|]. split; [exact Hn1|].
    split; [rewrite Hs1; exact (servers_old w Hw)|]. split; [exact Hd1|].
    split.
    - intros q. rewrite Hst1.
      destruct (decide (next_pid w = q)) as [<-|Hne]; [reflexivity|].
      rewrite lookup_insert_ne by exact Hne.
      intros Hq. destruct (Hstops q Hq).
    - rewrite Hj1. intros q Hin. destruct (Hjobs q Hin). }
  destruct (underWay_ordered _ _ _ _ _ (underWay_run _ _ _ _ sched _ Hsched H1))
    as (ext & Ht & Hord).
  exists ext. split; [|exact Hord].
  rewrite Ht, <- app_assoc. reflexivity.
Qed.

(** C4: with settings that can be read and no marker file,
    [startLanguageServer] returns after one information message; no
    client is made or stored, nothing enters the heap, and no client that
    was not there before can be asked to spawn a process. *)
Theorem start_without_marker (ed : Editor) (w : World) (s : jstring) :
  commandOptions (vsconfig ed) = JStr s ->
  existsSync ed (markerPath (firstWorkspace ed)) = false ->
  exists w',
    startLanguageServer ed w = (Ok tt, w')
    /\ trace w' = trace w ++ [EvInfo notFound]
    /\ client w' = client w
    /\ disposableClient w' = disposableClient w
    /\ servers w' = servers w
    /\ store w' = store w
    /\ stops w' = stops w
    /\ jobs w' = jobs w
    /\ next_cid w' = next_cid w
    /\ forall c host,
         servers w !! c = None -> step quote (ActLaunch c host) w' = w'.
Proof.
  intros Hs Hmarker. pose proof (startLanguageServer_cases ed w) as H.
  rewrite (buildCommand_shape (vsconfig ed) s Hs), Hmarker in H.
  eexists. split; [exact H|]. cbn.
  repeat (split; [reflexivity|]).
  intros c host Hc. unfold launch. cbn [servers]. rewrite Hc. reflexivity.
Qed.

(** C8: [deactivate] can be called in any reachable world.  If no client
    was ever made it returns [undefined] and changes nothing; otherwise it
    asks the current client to stop and returns the promise of that
    handshake, which stays pending until the client settles it. *)
Theorem deactivate_any_state (w : World) :
  reachable quote w ->
  ((forall c, EvNew c ∉ trace w) -> deactivate w = (Ok None, w))
  /\ (forall c0, EvNew c0 ∈ trace w ->
      exists c w',
        client w = Some c
        /\ deactivate w = (Ok (Some (next_pid w)), w')
        /\ trace w' = trace w ++ [EvStop c (next_pid w)]
        /\ stops w !! next_pid w = None
        /\ stops w' = <[next_pid w := false]> (stops w)
        /\ jobs w' = jobs w
        /\ client w' = client w
        /\ forall ok,
             trace (step quote (ActSettle (next_pid w) ok) w')
               = trace w' ++ [if ok then EvStopDone (next_pid w)
                              else EvStopFailed (next_pid w)]
             /\ stops (step quote (ActSettle (next_pid w) ok) w') = stops w
             /\ jobs (step quote (ActSettle (next_pid w) ok) w') = jobs w).
Proof.
  intros Hreach. pose proof (reachable_consistent quote w Hreach) as Hw.
  split.
  - intros Hnone. unfold deactivate.
    destruct (client w) as [c|] eqn:Hc; [|reflexivity].
    destruct (Hnone c (client_known w Hw c Hc)).
  - intros c0 Hc0. unfold deactivate, bind, clientStop.
    destruct (client w) as [c|] eqn:Hc.
    + assert (Hfresh : stops w !! next_pid w = None).
      { destruct (stops w !! next_pid w) as [b|] eqn:Hp; [|reflexivity].
        pose proof (stops_old w Hw _ _ Hp). lia. }
      exists c. eexists. split; [reflexivity|]. split; [reflexivity|].
      cbn [trace stops jobs client]. repeat (split; [reflexivity || exact Hfresh|]).
      intros ok. cbn [step]. unfold settle. cbn [stops].
      rewrite lookup_insert_eq. cbn [snd trace stops jobs andb].
      rewrite andb_false_r. split; [reflexivity|]. split; [|reflexivity].
      rewrite delete_insert_eq. apply delete_id. exact Hfresh.
    + destruct (client_first w Hw Hc c0 Hc0).
Qed.

(** C10: [commandOptions] has no default.  When it is [undefined] the
    call of [trim] throws: no argv comes out of the builder, and
    [startLanguageServer] ends there with the world untouched.  The two
    paths, when [undefined], fall back on "srb" and "bundle". *)
Theorem missing_options_abort (cfg : Config) :
  commandOptions cfg = JUndefined ->
  buildCommand cfg = Throw TypeError
  /\ (forall ed w,
        vsconfig ed = cfg -> startLanguageServer ed w = (Throw TypeError, w))
  /\ (forall ed c host,
        vsconfig ed = cfg -> step quote (ActLaunch c host) (activate ed) = init)
  /\ (forall s,
        commandPath cfg = JUndefined -> bundlerPath cfg = JUndefined ->
        buildCommand (setOptions cfg (JStr s)) =
          Ok ((if truthy (useBundler cfg)
               then [JStr (js "bundle"); JStr (js "exec"); JStr (js "srb")]
               else [JStr (js "srb")])
              ++ [JStr (js "tc"); JStr (js "--lsp")]
              ++ [optionsToken s] ++ watchmanToken cfg)).
Proof.
  intros Hopt.
  assert (Hthrow : buildCommand cfg = Throw TypeError).
  { unfold buildCommand. rewrite Hopt. reflexivity. }
  assert (Hstart : forall ed w, vsconfig ed = cfg ->
            startLanguageServer ed w = (Throw TypeError, w)).
  { intros ed w Hcfg. pose proof (startLanguageServer_cases ed w) as H.
    rewrite Hcfg, Hthrow in H. exact H. }
  split; [exact Hthrow|]. split; [exact Hstart|]. split.
  - intros ed c host Hcfg. unfold activate. rewrite (Hstart ed init Hcfg).
    reflexivity.
  - intros s Hpath Hbundle.
    rewrite (buildCommand_shape (setOptions cfg (JStr s)) s eq_refl).
    unfold launcher, watchmanToken. cbn [setOptions useBundler bundlerPath
      commandPath useWatchman]. rewrite Hpath, Hbundle. reflexivity.
Qed.

End RestartFacts.

(** ** The order every run keeps *)

Lemma app_split_cases {A} (T evs t1 t2 : list A) (x : A) :
  T ++ evs = t1 ++ x :: t2 ->
  (exists t2', T = t1 ++ x :: t2' /\ t2 = t2' ++ evs)
  \/ (exists e1, t1 = T ++ e1 /\ evs = e1 ++ x :: t2).
Proof.
  revert t1. induction T as [|y T IH]; intros t1 Heq.
  - right. exists t1. split; [reflexivity|exact Heq].
  - destruct t1 as [|z t1]; cbn in Heq; injection Heq as Hhd Htl.
    + left. exists T. rewrite Hhd, Htl. split; reflexivity.
    + destruct (IH t1 Htl) as [(t2' & -> & ->)|(e1 & -> & ->)].
      * left. exists t2'. rewrite Hhd. split; reflexivity.
      * right. exists e1. rewrite Hhd. split; reflexivity.
Qed.

Lemma stoppedBefore_app (t evs : list event) (c : cid) (p : pid) :
  stoppedBefore t c p -> stoppedBefore (t ++ evs) c p.
Proof.
  intros (a & b & e & ->). exists a, b, (e ++ evs).
  rewrite <- !app_assoc. cbn [app]. rewrite <- !app_assoc. reflexivity.
Qed.

Lemma stoppedBefore_done (t : list event) (c : cid) (p : pid) :
  EvStop c p ∈ t -> stoppedBefore (t ++ [EvStopDone p]) c p.
Proof.
  intros Hin. apply list_elem_of_split in Hin as (a & b & ->).
  exists a, b, []. rewrite <- !app_assoc. reflexivity.
Qed.

Lemma harmless_no_new (t evs : list event) :
  Forall (harmless t) evs -> forall c, EvNew c ∉ evs.
Proof.
  intros H c Hin. rewrite Forall_forall in H. exact (H _ Hin).
Qed.

Lemma harmless_no_start (t evs : list event) :
  Forall (harmless t) evs -> forall c, EvStart c ∉ evs.
Proof.
  intros H c Hin. rewrite Forall_forall in H. exact (H _ Hin).
Qed.

Lemma startsInOrder_app (t evs : list event) :
  startsInOrder t -> (forall c, EvNew c ∉ evs) -> startsInOrder (t ++ evs).
Proof.
  intros H Hevs t1 t2 c' Heq.
  destruct (app_split_cases t evs t1 t2 _ Heq) as [(t2' & Ht & _)|(e1 & _ & He)].
  - exact (H t1 t2' c' Ht).
  - exfalso. apply (Hevs c'). rewrite He.
    apply elem_of_app. right. apply elem_of_cons. left. reflexivity.
Qed.

Lemma spawnsAfterStart_app (t evs : list event) :
  spawnsAfterStart t -> Forall (harmless t) evs -> spawnsAfterStart (t ++ evs).
Proof.
  intros H Hevs t1 t2 c call Heq.
  destruct (app_split_cases t evs t1 t2 _ Heq) as [(t2' & Ht & _)|(e1 & -> & He)].
  - exact (H t1 t2' c call Ht).
  - apply elem_of_app. left. rewrite Forall_forall in Hevs.
    apply (Hevs (EvSpawn c call)). rewrite He.
    apply elem_of_app. right. apply elem_of_cons. left. reflexivity.
Qed.

Lemma startsAfterNew_app (t evs : list event) :
  startsAfterNew t -> (forall c, EvStart c ∉ evs) -> startsAfterNew (t ++ evs).
Proof.
  intros H Hevs t1 t2 c Heq.
  destruct (app_split_cases t evs t1 t2 _ Heq) as [(t2' & Ht & _)|(e1 & _ & He)].
  - exact (H t1 t2' c Ht).
  - exfalso. apply (Hevs c). rewrite He.
    apply elem_of_app. right. apply elem_of_cons. left. reflexivity.
Qed.

Lemma released_grow (w w' : World) (evs : list event) (c : cid) :
  disposableClient w' = disposableClient w ->
  trace w' = trace w ++ evs ->
  released w c -> released w' c.
Proof.
  intros Hd Ht [H|H]; [left; rewrite Hd; exact H|].
  right. rewrite Ht. apply elem_of_app. left. exact H.
Qed.

(** Harmless events keep the order, whatever becomes of the heap; pending
    stops and jobs may go, and may come with their own justification. *)
Lemma ordered_grow (w w' : World) (evs : list event) :
  disposableClient w' = disposableClient w ->
  servers w' = servers w ->
  trace w' = trace w ++ evs ->
  Forall (harmless (trace w)) evs ->
  (forall p, stops w' !! p = Some true ->
     stops w !! p = Some true
     \/ exists c, EvStop c p ∈ trace w' /\ released w' c) ->
  (forall p, JobResume p ∈ jobs w' ->
     JobResume p ∈ jobs w
     \/ exists c, stoppedBefore (trace w') c p /\ released w' c) ->
  ordered w -> ordered w'.
Proof.
  intros Hd Hs Ht Hevs Hst Hj [Hnew Hspawn Hserv Hidle Hstops Hjobs Hstart].
  split.
  - rewrite Ht. exact (startsInOrder_app _ _ Hnew (harmless_no_new _ _ Hevs)).
  - rewrite Ht. exact (spawnsAfterStart_app _ _ Hspawn Hevs).
  - rewrite Hs, Ht. intros c so Hc. apply elem_of_app. left. exact (Hserv c so Hc).
  - rewrite Hd, Ht. intros Hnone c Hin. apply elem_of_app in Hin as [Hin|Hin].
    + exact (Hidle Hnone c Hin).
    + exact (harmless_no_start _ _ Hevs c Hin).
  - intros p Hp. destruct (Hst p Hp) as [Hold|Hnow]; [|exact Hnow].
    destruct (Hstops p Hold) as (c & Hstop & Hrel). exists c. split.
    + rewrite Ht. apply elem_of_app. left. exact Hstop.
    + exact (released_grow w w' evs c Hd Ht Hrel).
  - intros p Hp. destruct (Hj p Hp) as [Hold|Hnow]; [|exact Hnow].
    destruct (Hjobs p Hold) as (c & Hbefore & Hrel). exists c. split.
    + rewrite Ht. exact (stoppedBefore_app _ evs c p Hbefore).
    + exact (released_grow w w' evs c Hd Ht Hrel).
  - rewrite Ht. exact (startsAfterNew_app _ _ Hstart (harmless_no_start _ _ Hevs)).
Qed.

Lemma ordered_emit (e : event) (w : World) :
  harmless (trace w) e -> ordered w -> ordered (snd (emit e w)).
Proof.
  intros He. apply (ordered_grow w _ [e]); try reflexivity; auto.
Qed.

Lemma ordered_enqueue_restarted (w : World) :
  ordered w -> ordered (snd (enqueue JobRestarted w)).
Proof.
  apply (ordered_grow w _ []); try reflexivity; auto.
  - world_simpl. rewrite app_nil_r. reflexivity.
  - world_simpl. intros p Hp. left.
    apply elem_of_app in Hp as [Hp|Hp]; [exact Hp|].
    apply list_elem_of_singleton in Hp. discriminate Hp.
Qed.

(** A start that goes through, in a world that is ready for it. *)
Lemma ordered_started (ed : Editor) (cmd : list jsval) (w : World) :
  ready w -> ordered w -> ordered (startedWorld ed cmd w).
Proof.
  intros [Hrel Hctx] [Hnew Hspawn Hserv Hidle Hstops Hjobs Hstart].
  assert (Hquiet : Forall (harmless (trace w)) [EvWatcher watched])
    by (repeat constructor).
  split; cbn [startedWorld trace servers disposableClient stops jobs].
  - intros t1 t2 c' Heq. rewrite <- !app_assoc in Heq. cbn [app] in Heq.
    destruct (app_split_cases _ _ t1 t2 _ Heq) as [(t2' & Ht & _)|(e1 & -> & He)].
    + exact (Hnew t1 t2' c' Ht).
    + destruct e1 as [|x [|y e1]]; cbn in He.
      * discriminate He.
      * injection He as <- _ _.
        destruct Hctx as [Hfirst|Hcb].
        -- left. intros c Hin. apply elem_of_app in Hin as [Hin|Hin].
           ++ exact (Hfirst c Hin).
           ++ apply list_elem_of_singleton in Hin. discriminate Hin.
        -- right. exists (trace w). split; [reflexivity|exact Hcb].
      * injection He as _ _ He.
        destruct e1 as [|z e1]; [discriminate He|].
        injection He as _ He. destruct e1; discriminate He.
  - intros t1 t2 c call Heq. rewrite <- !app_assoc in Heq. cbn [app] in Heq.
    destruct (app_split_cases _ _ t1 t2 _ Heq) as [(t2' & Ht & _)|(e1 & -> & He)].
    + exact (Hspawn t1 t2' c call Ht).
    + exfalso.
      assert (Hin : EvSpawn c call
                    ∈ [EvWatcher watched; EvNew (next_cid w); EvStart (next_cid w)]).
      { rewrite He. apply elem_of_app. right. apply elem_of_cons. left. reflexivity. }
      rewrite !elem_of_cons in Hin.
      destruct Hin as [H|[H|[H|H]]]; try discriminate H.
      exact (not_elem_of_nil _ H).
  - intros c so Hc. rewrite !elem_of_app, !list_elem_of_singleton.
    destruct (decide (next_cid w = c)) as [<-|Hne]; [right; reflexivity|].
    rewrite lookup_insert_ne in Hc by exact Hne.
    do 3 left. exact (Hserv c so Hc).
  - discriminate.
  - intros p Hp. destruct (Hstops p Hp) as (c & Hstop & Hc). exists c. split.
    + rewrite !elem_of_app. do 3 left. exact Hstop.
    + right. cbn [startedWorld trace]. rewrite !elem_of_app. do 3 left.
      exact (Hrel c Hc).
  - intros p Hp. destruct (Hjobs p Hp) as (c & Hbefore & Hc). exists c. split.
    + rewrite <- !app_assoc. exact (stoppedBefore_app _ _ c p Hbefore).
    + right. cbn [startedWorld trace]. rewrite !elem_of_app. do 3 left.
      exact (Hrel c Hc).
  - intros t1 t2 c Heq. rewrite <- !app_assoc in Heq. cbn [app] in Heq.
    destruct (app_split_cases _ _ t1 t2 _ Heq) as [(t2' & Ht & _)|(e1 & -> & He)].
    + exact (Hstart t1 t2' c Ht).
    + destruct e1 as [|x [|y [|z e1]]]; cbn in He; try discriminate He.
      * injection He as <- <- <- _. exists (trace w ++ [EvWatcher watched]).
        rewrite <- app_assoc. reflexivity.
      * injection He as _ _ _ He. destruct e1; discriminate He.
Qed.

Lemma ordered_start (ed : Editor) (w : World) :
  ready w -> ordered w -> ordered (snd (startLanguageServer ed w)).
Proof.
  intros Hready Hw. pose proof (startLanguageServer_cases ed w) as H.
  destruct (buildCommand (vsconfig ed)) as [cmd|e]; [|rewrite H; exact Hw].
  destruct (existsSync ed (markerPath (firstWorkspace ed))); rewrite H.
  - exact (ordered_started ed cmd w Hready Hw).
  - apply ordered_emit; [exact I|exact Hw].
Qed.

Lemma ordered_clientStop (waiting : bool) (w : World) :
  consistent w -> ordered w -> ordered (snd (clientStop waiting w)).
Proof.
  intros Hc Hw. unfold clientStop. destruct (client w) as [c|] eqn:Hcl; [|exact Hw].
  apply (ordered_grow w _ [EvStop c (next_pid w)]); try reflexivity; auto.
  - repeat constructor.
  - world_simpl. intros p Hp.
    destruct (decide (next_pid w = p)) as [<-|Hne].
    + right. exists c. split.
      * apply elem_of_app. right. apply list_elem_of_singleton. reflexivity.
      * left. world_simpl. rewrite (same_handle w Hc). exact Hcl.
    + left. rewrite lookup_insert_ne in Hp by exact Hne. exact Hp.
Qed.

Lemma ordered_settle (p : pid) (ok : bool) (w : World) :
  ordered w -> ordered (snd (settle p ok w)).
Proof.
  intros Hw. unfold settle. destruct (stops w !! p) as [waiting|] eqn:Hp; [|exact Hw].
  apply (ordered_grow w _ [if ok then EvStopDone p else EvStopFailed p]);
    try reflexivity.
  - repeat constructor. destruct ok; exact I.
  - world_simpl. intros q Hq. left.
    apply lookup_delete_Some in Hq as [_ Hq]. exact Hq.
  - world_simpl. intros q Hq.
    destruct ok, waiting; cbn [andb] in Hq; try (left; exact Hq).
    apply elem_of_app in Hq as [Hq|Hq]; [left; exact Hq|].
    apply list_elem_of_singleton in Hq. injection Hq as ->.
    right. destruct (ord_stops w Hw p Hp) as (c & Hstop & Hrel).
    exists c. split.
    + exact (stoppedBefore_done _ c p Hstop).
    + destruct Hrel as [Hrel|Hrel]; [left; exact Hrel|].
      right. world_simpl. apply elem_of_app. left. exact Hrel.
  - exact Hw.
Qed.

(** The callback: the stop it waited for is over, the current handle goes,
    and the world is ready for a start. *)
Lemma ordered_resumeRestart (p : pid) (ed : Editor) (w : World) :
  (exists c, stoppedBefore (trace w) c p /\ released w c) ->
  ordered w -> ordered (snd (resumeRestart p ed w)).
Proof.
  intros (c & Hbefore & Hrel) Hw. unfold resumeRestart, bind, disposeClient.
  pose proof (ordered_emit (EvResume p) w I Hw) as Hw0.
  world_simpl. world_simpl in Hw0.
  destruct (disposableClient w) as [d|] eqn:Hd; [|exact Hw0].
  world_simpl.
  pose proof (ordered_emit (EvDispose d) _ I Hw0) as Hw1. world_simpl in Hw1.
  match goal with
  | |- context [startLanguageServer ed ?w1] =>
      assert (Hready : ready w1)
  end.
  { split; world_simpl.
    - intros c' [Hc'|Hc'].
      + injection Hc' as <-. apply elem_of_app. right.
        apply list_elem_of_singleton. reflexivity.
      + exact Hc'.
    - right. exists (trace w), p, c, d. split; [|split].
      + rewrite <- app_assoc. reflexivity.
      + exact Hbefore.
      + apply elem_of_app. destruct Hrel as [Hrel|Hrel].
        * right. rewrite Hd in Hrel. injection Hrel as ->.
          apply list_elem_of_singleton. reflexivity.
        * left. exact Hrel. }
  pose proof (ordered_start ed _ Hready Hw1) as H.
  match goal with
  | |- context [startLanguageServer ed ?w1] =>
      destruct (startLanguageServer ed w1) as [[[]|e] w2]
  end; cbn [snd] in H |- *.
  - exact (ordered_enqueue_restarted w2 H).
  - exact H.
Qed.

Lemma ordered_runJob (ed : Editor) (w : World) :
  ordered w -> ordered (snd (runJob ed w)).
Proof.
  intros Hw. unfold runJob, bind, popJob.
  destruct (jobs w) as [|[p|] js'] eqn:Hj; [exact Hw| |].
  - destruct (ord_jobs w Hw p) as (c & Hbefore & Hrel).
    { rewrite Hj. apply elem_of_cons. left. reflexivity. }
    apply ordered_resumeRestart.
    + exists c. split; [exact Hbefore|exact Hrel].
    + revert Hw. apply (ordered_grow w _ []); try reflexivity; auto.
      * world_simpl. rewrite app_nil_r. reflexivity.
      * world_simpl. intros q Hq. left. rewrite Hj.
        apply elem_of_cons. right. exact Hq.
  - apply ordered_emit; [exact I|].
    revert Hw. apply (ordered_grow w _ []); try reflexivity; auto.
    + world_simpl. rewrite app_nil_r. reflexivity.
    + world_simpl. intros q Hq. left. rewrite Hj.
      apply elem_of_cons. right. exact Hq.
Qed.

Lemma ordered_restartLanguageServer (ed : Editor) (w : World) :
  consistent w -> ordered w -> ordered (snd (restartLanguageServer ed w)).
Proof.
  intros Hc Hw. unfold restartLanguageServer, bind.
  destruct (disposableClient w) as [d|] eqn:Hd.
  - pose proof (ordered_clientStop true w Hc Hw) as H.
    destruct (clientStop true w) as [[p|e] w1]; exact H.
  - assert (Hready : ready w).
    { split.
      - intros c [Hrel|Hrel]; [congruence|exact Hrel].
      - left. exact (ord_idle w Hw Hd). }
    pose proof (ordered_start ed w Hready Hw) as H.
    destruct (startLanguageServer ed w) as [[[]|e] w1]; cbn [snd] in H |- *.
    + exact (ordered_enqueue_restarted w1 H).
    + exact H.
Qed.

Lemma ordered_deactivate (w : World) :
  consistent w -> ordered w -> ordered (snd (deactivate w)).
Proof.
  intros Hc Hw. unfold deactivate, bind.
  destruct (client w) as [c|] eqn:Hcl; [|exact Hw].
  pose proof (ordered_clientStop false w Hc Hw) as H.
  destruct (clientStop false w) as [[p|e] w1]; exact H.
Qed.

Lemma ordered_init : ordered init.
Proof.
  split; cbn.
  - intros t1 t2 c' Heq. destruct t1; discriminate Heq.
  - intros t1 t2 c call Heq. destruct t1; discriminate Heq.
  - intros c so H. rewrite lookup_empty in H. discriminate H.
  - intros _ c. apply not_elem_of_nil.
  - intros p H. rewrite lookup_empty in H. discriminate H.
  - intros p H. destruct (not_elem_of_nil _ H).
  - intros t1 t2 c Heq. destruct t1; discriminate Heq.
Qed.

Lemma ready_init : ready init.
Proof.
  split.
  - intros c [H|H]; [discriminate H|exact H].
  - left. intros c. apply not_elem_of_nil.
Qed.

Section OrderFacts.

Variable quote : jsval -> result jstring.

Lemma ordered_launch (c : cid) (host : Host) (w : World) :
  ordered w -> ordered (snd (launch quote c host w)).
Proof.
  intros Hw.
  destruct (launch_cases quote c host w)
    as (w' & -> & _ & Hd & Hs & _ & Hst & _ & Hj & [Ht|(call & [so Hso] & Ht)]).
  - revert Hw. apply (ordered_grow w w' []); auto.
    + rewrite app_nil_r. exact Ht.
    + rewrite Hst. auto.
    + rewrite Hj. auto.
  - apply (ordered_grow w w' [EvSpawn c call]); auto.
    + repeat constructor. exact (ord_servers w Hw c so Hso).
    + rewrite Hst. auto.
    + rewrite Hj. auto.
Qed.

Lemma ordered_step (a : action) (w : World) :
  consistent w -> ordered w -> ordered (step quote a w).
Proof.
  intros Hc Hw. destruct a; cbn [step].
  - exact (ordered_restartLanguageServer ed w Hc Hw).
  - exact (ordered_settle p ok w Hw).
  - exact (ordered_runJob ed w Hw).
  - exact (ordered_launch c host w Hw).
  - exact (ordered_deactivate w Hc Hw).
Qed.

Lemma ordered_run (sched : list action) (w : World) :
  consistent w -> ordered w -> ordered (run quote sched w).
Proof.
  revert w. induction sched as [|a sched IH]; intros w Hc Hw; [exact Hw|].
  exact (IH (step quote a w) (step_consistent quote a w Hc)
            (ordered_step a w Hc Hw)).
Qed.

Lemma reachable_ordered (w : World) : reachable quote w -> ordered w.
Proof.
  intros (ed & sched & ->). apply ordered_run.
  - apply startLanguageServer_consistent, init_consistent.
  - exact (ordered_start ed init ready_init ordered_init).
Qed.

(** C1: in every run, a client is made while a handle exists only in the
    callback of a restart.  That callback runs after the stop handshake the
    restart asked for has ended (its promise [p] is fulfilled), it first
    disposes of the current handle, and by then the handle of the client
    [c] the restart stopped is disposed of; only then come the file
    watcher, the new client and its start, and a process is spawned for a
    client only after that client was started.  The restart command itself
    starts nothing when a handle exists. *)
Theorem restart_stop_before_start (w : World) :
  reachable quote w ->
  (forall t1 t2 c',
     trace w = t1 ++ EvNew c' :: t2 ->
     (forall c, EvStart c ∉ t1)
     \/ exists t0 p c d a b e,
          t1 = t0 ++ [EvResume p; EvDispose d; EvWatcher watched]
          /\ t0 = a ++ EvStop c p :: b ++ EvStopDone p :: e
          /\ EvDispose c ∈ t0 ++ [EvDispose d])
  /\ (forall t1 t2 c,
        trace w = t1 ++ EvStart c :: t2 -> exists t0, t1 = t0 ++ [EvNew c])
  /\ (forall t1 t2 c call,
        trace w = t1 ++ EvSpawn c call :: t2 -> EvStart c ∈ t1)
  /\ (forall ed c,
        disposableClient w = Some c ->
        trace (step quote (ActRestart ed) w) = trace w ++ [EvStop c (next_pid w)]
        /\ stops (step quote (ActRestart ed) w) !! next_pid w = Some true).
Proof.
  intros Hreach.
  pose proof (reachable_ordered w Hreach) as [Hnew Hspawn _ _ _ _ Hstart].
  pose proof (reachable_consistent quote w Hreach) as Hw.
  split; [|split; [exact Hstart|split; [exact Hspawn|]]].
  - intros t1 t2 c' Heq. destruct (Hnew t1 t2 c' Heq) as [Hfirst|Hcb].
    + left. exact Hfirst.
    + right. destruct Hcb as (t & -> & t0 & p & c & d & -> & (a & b & e & Hsb) & Hd).
      exists t0, p, c, d, a, b, e. split; [|split].
      * rewrite <- app_assoc. reflexivity.
      * exact Hsb.
      * exact Hd.
  - intros ed c Hd. cbn [step]. unfold restartLanguageServer, bind, clientStop.
    rewrite Hd. rewrite <- (same_handle w Hw), Hd. world_simpl.
    split; [reflexivity|]. apply lookup_insert_eq.
Qed.

End OrderFacts.


(** ** Runs of the examples *)

Example activate_without_marker :
  activate (projEditor defaultConfig false)
    = snd (emit (EvInfo notFound) init).
Proof. reflexivity. Qed.

Example activate_with_marker :
  trace projectOpen = [EvWatcher watched; EvNew 0; EvStart 0]
  /\ client projectOpen = Some 0
  /\ disposableClient projectOpen = Some 0
  /\ store projectOpen !! 0 =
       Some [JStr (js "srb"); JStr (js "tc"); JStr (js "--lsp");
             enableExperimental; disableWatchman].
Proof. repeat split; vm_compute; reflexivity. Qed.

Example restart_run :
  trace (run quotePlain afterRestart
           (step quotePlain (ActRestart (projEditor defaultConfig true)) projectOpen))
    = [EvWatcher watched; EvNew 0; EvStart 0;
       EvStop 0 0;
       EvSpawn 0 (loginShell (js "cd /proj && srb tc --lsp --enable-all-experimental-lsp-features --disable-watchman"));
       EvStopDone 0; EvResume 0; EvDispose 0;
       EvWatcher watched; EvNew 1; EvStart 1;
       EvInfo restarted;
       EvSpawn 1 (loginShell (js "cd /proj && srb tc --lsp --enable-all-experimental-lsp-features --disable-watchman"))].
Proof. vm_compute. reflexivity. Qed.

(** Two restart commands in a row: both ask client 0 to stop and wait for
    that.  The second callback waits for no stop of client 1: it disposes
    of the handle of client 1 and starts client 2. *)
Example restart_twice :
  trace (run quotePlain
           [ActRestart (projEditor defaultConfig true);
            ActRestart (projEditor defaultConfig true);
            ActSettle 0 true; ActSettle 1 true;
            ActJob (projEditor defaultConfig true);
            ActJob (projEditor defaultConfig true)]
           projectOpen)
    = [EvWatcher watched; EvNew 0; EvStart 0;
       EvStop 0 0; EvStop 0 1; EvStopDone 0; EvStopDone 1;
       EvResume 0; EvDispose 0; EvWatcher watched; EvNew 1; EvStart 1;
       EvResume 1; EvDispose 1; EvWatcher watched; EvNew 2; EvStart 2].
Proof. vm_compute. reflexivity. Qed.

(** A restart whose stop handshake fails starts nothing. *)
Example restart_stop_rejected :
  trace (run quotePlain
           [ActSettle 0 false; ActJob (projEditor defaultConfig true)]
           (step quotePlain (ActRestart (projEditor defaultConfig true)) projectOpen))
    = [EvWatcher watched; EvNew 0; EvStart 0; EvStop 0 0; EvStopFailed 0].
Proof. vm_compute. reflexivity. Qed.

(** Restarting when the first start found no marker file: the start is
    tried at once, and the confirmation follows the notice. *)
Example restart_from_idle :
  trace (run quotePlain
           [ActRestart (projEditor defaultConfig false);
            ActJob (projEditor defaultConfig false)]
           (activate (projEditor defaultConfig false)))
    = [EvInfo notFound; EvInfo notFound; EvInfo restarted].
Proof. vm_compute. reflexivity. Qed.

(** The client launching its server twice on a host without bash or zsh:
    the second process is "tc". *)
Example relaunch_direct :
  trace (run quotePlain [ActLaunch 0 windows; ActLaunch 0 windows] projectOpen)
    = [EvWatcher watched; EvNew 0; EvStart 0;
       EvSpawn 0 (CrossSpawn (JStr (js "srb"))
                    [JStr (js "tc"); JStr (js "--lsp"); enableExperimental;
                     disableWatchman]
                    (commonOptions (Some (js "/proj"))));
       EvSpawn 0 (CrossSpawn (JStr (js "tc"))
                    [JStr (js "--lsp"); enableExperimental; disableWatchman]
                    (commonOptions (Some (js "/proj"))))].
Proof. vm_compute. reflexivity. Qed.

(** The serial order on the run above. *)
Example restart_serial_run :
  exists ext,
    trace (run quotePlain afterRestart
             (step quotePlain (ActRestart (projEditor defaultConfig true)) projectOpen))
      = trace projectOpen ++ EvStop 0 (next_pid projectOpen) :: ext
    /\ forall e1 ev e2,
         ext = e1 ++ ev :: e2 ->
         startsNew (next_cid projectOpen) ev = true ->
         exists a b,
           e1 = a ++ EvStopDone (next_pid projectOpen) :: b /\ EvDispose 0 ∈ b.
Proof.
  apply (restart_serial_order quotePlain (projEditor defaultConfig true)
           projectOpen 0 afterRestart).
  - exists (projEditor defaultConfig true), []. reflexivity.
  - reflexivity.
  - intros q. vm_compute. discriminate.
  - intros q. vm_compute. apply not_elem_of_nil.
  - reflexivity.
Qed.

Lemma restart_stop_before_start_witness :
  (forall t1 t2 c',
     trace restartedWorld = t1 ++ EvNew c' :: t2 ->
     (forall c, EvStart c ∉ t1)
     \/ exists t0 p c d a b e,
          t1 = t0 ++ [EvResume p; EvDispose d; EvWatcher watched]
          /\ t0 = a ++ EvStop c p :: b ++ EvStopDone p :: e
          /\ EvDispose c ∈ t0 ++ [EvDispose d])
  /\ (forall t1 t2 c,
        trace restartedWorld = t1 ++ EvStart c :: t2 ->
        exists t0, t1 = t0 ++ [EvNew c])
  /\ (forall t1 t2 c call,
        trace restartedWorld = t1 ++ EvSpawn c call :: t2 -> EvStart c ∈ t1)
  /\ (forall ed c,
        disposableClient restartedWorld = Some c ->
        trace (step quotePlain (ActRestart ed) restartedWorld)
          = trace restartedWorld ++ [EvStop c (next_pid restartedWorld)]
        /\ stops (step quotePlain (ActRestart ed) restartedWorld)
             !! next_pid restartedWorld = Some true).
Proof.
  apply (restart_stop_before_start quotePlain restartedWorld).
  exists (projEditor defaultConfig true),
    (ActRestart (projEditor defaultConfig true) :: afterRestart).
  unfold restartedWorld, projectOpen. reflexivity.
Defined.

Lemma start_without_marker_witness :
  exists w',
    startLanguageServer (projEditor defaultConfig false) init = (Ok tt, w')
    /\ trace w' = [EvInfo notFound]
    /\ client w' = None
    /\ disposableClient w' = None
    /\ servers w' = ∅.
Proof.
  destruct (start_without_marker quotePlain (projEditor defaultConfig false) init []
              eq_refl eq_refl)
    as (w' & Hrun & Ht & Hc & Hd & Hs & _).
  exists w'. repeat split; assumption.
Defined.

Lemma deactivate_any_state_witness :
  deactivate (activate (projEditor defaultConfig false))
    = (Ok None, activate (projEditor defaultConfig false))
  /\ exists c w',
       client projectOpen = Some c
       /\ deactivate projectOpen = (Ok (Some 0), w')
       /\ trace w' = trace projectOpen ++ [EvStop c 0].
Proof.
  split.
  - apply (deactivate_any_state quotePlain (activate (projEditor defaultConfig false))).
    + exists (projEditor defaultConfig false), []. reflexivity.
    + intros c Hin. apply list_elem_of_singleton in Hin. discriminate Hin.
  - destruct (proj2 (deactivate_any_state quotePlain projectOpen
                       ltac:(exists (projEditor defaultConfig true), []; reflexivity))
                0 ltac:(vm_compute; apply elem_of_cons; right;
                        apply elem_of_cons; left; reflexivity))
      as (c & w' & Hc & Hrun & Ht & _).
    exists c, w'. repeat split; assumption.
Defined.

Lemma missing_options_abort_witness :
  buildCommand noOptions = Throw TypeError
  /\ startLanguageServer (projEditor noOptions true) init = (Throw TypeError, init)
  /\ buildCommand (setOptions noOptions (JStr (js " ")))
       = Ok [JStr (js "srb"); JStr (js "tc"); JStr (js "--lsp");
             enableExperimental; disableWatchman].
Proof.
  destruct (missing_options_abort quotePlain noOptions eq_refl)
    as (Hbuild & Hstart & _ & Hdefault).
  split; [exact Hbuild|].
  split; [exact (Hstart (projEditor noOptions true) init eq_refl)|].
  exact (Hdefault (js " ") eq_refl eq_refl).
Defined.

(** * Further properties *)

(** ** White space around the options *)

Lemma trimStart_pad (pre s : jstring) :
  forallb isWhiteSpace pre = true -> trimStart (pre ++ s) = trimStart s.
Proof.
  induction pre as [|c pre IH]; cbn [app trimStart forallb]; [reflexivity|].
  intros H. apply andb_true_iff in H as [Hc Hpre]. rewrite Hc. exact (IH Hpre).
Qed.

Lemma trimStart_app (s post : jstring) :
  trimStart s <> [] -> trimStart (s ++ post) = trimStart s ++ post.
Proof.
  induction s as [|c s IH]; cbn [app trimStart]; [congruence|].
  destruct (isWhiteSpace c); [exact IH|reflexivity].
Qed.

Lemma forallb_reverse (f : N -> bool) (l : jstring) :
  forallb f l = true -> forallb f (reverse l) = true.
Proof.
  rewrite !forallb_forall. intros H x Hx. apply H.
  apply list_elem_of_In. apply list_elem_of_In in Hx.
  rewrite elem_of_reverse in Hx. exact Hx.
Qed.

Lemma trimEnd_pad (s post : jstring) :
  forallb isWhiteSpace post = true -> trimEnd (s ++ post) = trimEnd s.
Proof.
  intros H. unfold trimEnd. rewrite reverse_app.
  rewrite (trimStart_pad _ _ (forallb_reverse _ _ H)). reflexivity.
Qed.

Lemma trim_pad (pre s post : jstring) :
  forallb isWhiteSpace pre = true ->
  forallb isWhiteSpace post = true ->
  trim (pre ++ s ++ post) = trim s.
Proof.
  intros Hpre Hpost. unfold trim. rewrite (trimStart_pad pre _ Hpre).
  destruct (trimStart s) as [|c t] eqn:Hs.
  - assert (Hall : trimStart (s ++ post) = []).
    { clear Hpre. induction s as [|d s IH]; cbn [app trimStart] in Hs |- *.
      - exact (trimStart_whitespace post Hpost).
      - destruct (isWhiteSpace d); [exact (IH Hs)|discriminate Hs]. }
    rewrite Hall. reflexivity.
  - rewrite trimStart_app by (rewrite Hs; discriminate).
    rewrite Hs. exact (trimEnd_pad (c :: t) post Hpost).
Qed.

(** X1: white space before and after the options never changes the argv:
    only the trimmed value of [commandOptions] reaches the command. *)
Theorem padded_options_same_argv (cfg : Config) (pre s post : jstring) :
  forallb isWhiteSpace pre = true ->
  forallb isWhiteSpace post = true ->
  buildCommand (setOptions cfg (JStr (pre ++ s ++ post)))
    = buildCommand (setOptions cfg (JStr s)).
Proof.
  intros Hpre Hpost.
  rewrite (buildCommand_shape (setOptions cfg (JStr (pre ++ s ++ post))) _ eq_refl).
  rewrite (buildCommand_shape (setOptions cfg (JStr s)) _ eq_refl).
  unfold optionsToken. rewrite (trim_pad pre s post Hpre Hpost). reflexivity.
Qed.

Lemma padded_options_same_argv_witness :
  buildCommand (setOptions defaultConfig (JStr (js "  " ++ js "-v -q" ++ [9; 10]%N)))
    = buildCommand (setOptions defaultConfig (JStr (js "-v -q"))).
Proof.
  exact (padded_options_same_argv defaultConfig (js "  ") (js "-v -q") [9; 10]%N
           eq_refl eq_refl).
Defined.

(** ** What an argv looks like *)

Lemma launcher_truthy (cfg : Config) (v : jsval) :
  v ∈ launcher cfg -> truthy v = true.
Proof.
  unfold launcher. destruct (truthy (useBundler cfg)).
  - rewrite !elem_of_cons. intros [->|[->|[->|H]]]; try reflexivity.
    + destruct (truthy (bundlerPath cfg)) eqn:Hb; [exact Hb|reflexivity].
    + destruct (not_elem_of_nil _ H).
  - rewrite list_elem_of_singleton. intros ->.
    destruct (truthy (commandPath cfg)) eqn:Hc; [exact Hc|reflexivity].
Qed.

(** X2: with a string for [commandOptions] the builder returns an argv of
    four to seven tokens, none of which is empty, [undefined] or otherwise
    falsy. *)
Theorem argv_tokens_truthy (cfg : Config) (s : jstring) :
  commandOptions cfg = JStr s ->
  exists argv,
    buildCommand cfg = Ok argv
    /\ 4 <= length argv <= 7
    /\ forall v, v ∈ argv -> truthy v = true.
Proof.
  intros Hs. eexists. split; [exact (buildCommand_shape cfg s Hs)|]. split.
  - rewrite !length_app. unfold launcher, watchmanToken.
    destruct (truthy (useBundler cfg)), (truthy (useWatchman cfg)); cbn; lia.
  - intros v. rewrite !elem_of_app. intros [H|[H|[H|H]]].
    + exact (launcher_truthy cfg v H).
    + rewrite !elem_of_cons in H. destruct H as [->|[->|H]]; try reflexivity.
      destruct (not_elem_of_nil _ H).
    + apply list_elem_of_singleton in H. subst v. unfold optionsToken.
      destruct (trim s); reflexivity.
    + unfold watchmanToken in H. destruct (truthy (useWatchman cfg)).
      * destruct (not_elem_of_nil _ H).
      * apply list_elem_of_singleton in H. subst v. reflexivity.
Qed.

Lemma argv_tokens_truthy_witness :
  exists argv,
    buildCommand bundlerConfig = Ok argv
    /\ 4 <= length argv <= 7
    /\ forall v, v ∈ argv -> truthy v = true.
Proof. exact (argv_tokens_truthy bundlerConfig _ eq_refl). Defined.

(** X3: the builder returns exactly when [commandOptions] is a string; for
    [undefined], [null], a boolean, a number or an object it throws a
    TypeError, whatever the other settings are. *)
Theorem buildCommand_returns_iff_string (cfg : Config) :
  ((exists argv, buildCommand cfg = Ok argv)
   <-> exists s, commandOptions cfg = JStr s)
  /\ ((forall s, commandOptions cfg <> JStr s) -> buildCommand cfg = Throw TypeError).
Proof.
  assert (Hthrow : (forall s, commandOptions cfg <> JStr s) ->
                   buildCommand cfg = Throw TypeError).
  { intros Hns. unfold buildCommand.
    destruct (commandOptions cfg) as [| | | |s|]; try reflexivity.
    destruct (Hns s eq_refl). }
  split; [|exact Hthrow]. split.
  - intros [argv Hargv].
    destruct (commandOptions cfg) as [| | | |s|] eqn:Hc;
      try (rewrite Hthrow in Hargv by (rewrite ?Hc; discriminate);
           discriminate Hargv).
    exists s. reflexivity.
  - intros [s Hs]. eexists. exact (buildCommand_shape cfg s Hs).
Qed.

(** X4: under bundler the configured [commandPath] is never used, and
    without bundler the configured [bundlerPath] is never used. *)
Theorem unused_path_ignored (cfg : Config) (v : jsval) :
  (truthy (useBundler cfg) = true ->
   buildCommand (setCommandPath cfg v) = buildCommand cfg)
  /\ (truthy (useBundler cfg) = false ->
      buildCommand (setBundlerPath cfg v) = buildCommand cfg).
Proof.
  unfold buildCommand, js_or.
  cbn [setCommandPath setBundlerPath commandPath useBundler useWatchman
       bundlerPath commandOptions].
  split; intros Hb; rewrite Hb; reflexivity.
Qed.

Lemma unused_path_ignored_witness :
  buildCommand (setCommandPath bundlerConfig (JStr (js "/elsewhere/srb")))
    = buildCommand bundlerConfig
  /\ buildCommand (setBundlerPath defaultConfig (JStr (js "/elsewhere/bundle")))
    = buildCommand defaultConfig.
Proof.
  split.
  - exact (proj1 (unused_path_ignored bundlerConfig _) eq_refl).
  - exact (proj2 (unused_path_ignored defaultConfig _) eq_refl).
Defined.

Lemma buildCommand_returns_iff_string_witness :
  buildCommand noOptions = Throw TypeError
  /\ exists s, commandOptions bundlerConfig = JStr s.
Proof.
  split.
  - apply (proj2 (buildCommand_returns_iff_string noOptions)).
    intros s. discriminate.
  - apply (proj1 (proj1 (buildCommand_returns_iff_string bundlerConfig))).
    eexists. exact (buildCommand_shape bundlerConfig _ eq_refl).
Defined.

(** ** Which shell, and with which options *)

Lemma endsWith_true (s t : jstring) :
  endsWith s t = true <-> exists prefix, s = prefix ++ t.
Proof.
  unfold endsWith, jstring_eqb. rewrite andb_true_iff, bool_decide_eq_true.
  rewrite Nat.leb_le. split.
  - intros [Hdrop _]. exists (take (length s - length t) s).
    pose proof (take_drop (length s - length t) s) as H.
    rewrite Hdrop in H. symmetry. exact H.
  - intros [prefix ->]. rewrite length_app. split; [|lia].
    replace (length prefix + length t - length t) with (length prefix) by lia.
    apply drop_app_length.
Qed.

(** X5: the login-shell path is chosen by the last letters of the shell
    path alone: a shell counts as bash or zsh exactly when its path is some
    prefix followed by "bash" or by "zsh". *)
Theorem isBashOrZsh_suffix (shell : jstring) :
  isBashOrZsh shell = true
  <-> exists prefix, shell = prefix ++ js "bash" \/ shell = prefix ++ js "zsh".
Proof.
  unfold isBashOrZsh. rewrite orb_true_iff, !endsWith_true. split.
  - intros [[p H]|[p H]]; exists p; [left|right]; exact H.
  - intros [p [H|H]]; [left|right]; exists p; exact H.
Qed.

Section SpawnerMore.

Variable quote : jsval -> result jstring.

(** The direct path on any array, the empty one included. *)
Lemma spawnWithBash_direct_any (host : Host) (cmd : loc) (opts : jsobj) (h : heap)
    (a : list jsval) :
  isUnixLike host = false \/ isBashOrZsh (resolveShell host) = false ->
  h !! cmd = Some a ->
  spawnWithBash quote host cmd opts h
    = (Ok (CrossSpawn (default JUndefined (a !! 0)) (drop 1 a) opts),
       <[cmd := drop 1 a]> h).
Proof.
  intros Hdirect Hcmd. destruct a as [|v a].
  - unfold spawnWithBash, deref. rewrite Hcmd. cbn [from_option id shift].
    rewrite lookup_insert_eq. cbn [from_option id].
    destruct Hdirect as [Hos|Hsh].
    + rewrite Hos. reflexivity.
    + rewrite Hsh. destruct (isUnixLike host); reflexivity.
  - exact (spawnWithBash_direct quote host cmd opts h v a Hdirect Hcmd).
Qed.


(** X7: on the login-shell path the options handed to
    [child_process.spawn] are the caller's with the resolved shell added
    under "shell"; a "shell" entry of the caller's own wins, and every other
    entry, "cwd" included, goes through unchanged. *)
Theorem shell_spawn_options (host : Host) (cmd : loc) (opts : jsobj) (h : heap)
    (call : spawn_call) :
  isUnixLike host = true ->
  isBashOrZsh (resolveShell host) = true ->
  fst (spawnWithBash quote host cmd opts h) = Ok call ->
  exists shellCmd options,
    call = ChildProcessSpawn (resolveShell host) [js "-l"; js "-c"; shellCmd] options
    /\ options !! "shell"
         = Some (default (JStr (resolveShell host)) (opts !! "shell"))
    /\ forall k, k <> "shell" -> options !! k = opts !! k.
Proof.
  intros Hos Hsh. rewrite (spawnWithBash_shell quote host cmd opts h Hos Hsh).
  cbn [fst].
  destruct (shellEscape quote (deref h cmd)) as [s0|e]; cbn [rbind];
    [|discriminate].
  destruct (if truthy (prop opts "cwd")
            then rbind (shellEscape quote [JStr (js "cd"); prop opts "cwd"])
                   (fun cd => Ok (cd ++ js " && " ++ s0))
            else Ok s0) as [s1|e]; cbn [rbind]; [|discriminate].
  intros [= <-]. exists s1, (opts ∪ {["shell" := JStr (resolveShell host)]}).
  split; [reflexivity|]. split.
  - rewrite lookup_union. destruct (opts !! "shell") as [v|] eqn:Hv.
    + rewrite lookup_singleton_eq. reflexivity.
    + rewrite lookup_singleton_eq. reflexivity.
  - intros k Hk. rewrite lookup_union, lookup_singleton_ne by congruence.
    destruct (opts !! k); reflexivity.
Qed.


End SpawnerMore.

Lemma isBashOrZsh_suffix_witness :
  isBashOrZsh (js "/usr/bin/rbash") = true
  /\ exists prefix,
       js "/bin/zsh" = prefix ++ js "bash" \/ js "/bin/zsh" = prefix ++ js "zsh".
Proof.
  split.
  - apply (proj2 (isBashOrZsh_suffix (js "/usr/bin/rbash"))).
    exists (js "/usr/bin/r"). left. reflexivity.
  - exact (proj1 (isBashOrZsh_suffix (js "/bin/zsh")) eq_refl).
Defined.


Lemma shell_spawn_options_witness :
  exists shellCmd options,
    loginShell (js "cd /proj && srb tc --lsp")
      = ChildProcessSpawn (resolveShell zshMac) [js "-l"; js "-c"; shellCmd] options
    /\ options !! "shell"
         = Some (default (JStr (resolveShell zshMac))
                   (commonOptions (Some (js "/proj")) !! "shell"))
    /\ forall k, k <> "shell" ->
                 options !! k = commonOptions (Some (js "/proj")) !! k.
Proof.
  exact (shell_spawn_options quotePlain zshMac 0 (commonOptions (Some (js "/proj")))
           {[0 := srbArgv]} _ eq_refl eq_refl eq_refl).
Defined.


(** ** Launching the server of a client *)

Section LaunchFacts.

Variable quote : jsval -> result jstring.

(** One launch on the direct path. *)
Lemma launch_direct (c : cid) (host : Host) (w : World) (so : Closure)
    (a : list jsval) :
  isUnixLike host = false \/ isBashOrZsh (resolveShell host) = false ->
  servers w !! c = Some so ->
  store w !! cl_cmd so = Some a ->
  let w' := step quote (ActLaunch c host) w in
  trace w' = trace w ++ [EvSpawn c (CrossSpawn (default JUndefined (a !! 0))
                                      (drop 1 a) (cl_env so))]
  /\ store w' = <[cl_cmd so := drop 1 a]> (store w)
  /\ servers w' = servers w.
Proof.
  intros Hdirect Hso Ha. cbn zeta. cbn [step]. unfold launch. rewrite Hso.
  rewrite (spawnWithBash_direct_any quote host _ _ _ a Hdirect Ha).
  world_simpl. auto.
Qed.

(** One launch on the login-shell path. *)
Lemma launch_shell (c : cid) (host : Host) (w : World) (so : Closure) :
  isUnixLike host = true ->
  isBashOrZsh (resolveShell host) = true ->
  servers w !! c = Some so ->
  let w' := step quote (ActLaunch c host) w in
  trace w' = trace w
             ++ match fst (spawnWithBash quote host (cl_cmd so) (cl_env so) (store w)) with
                | Ok call => [EvSpawn c call]
                | Throw _ => []
                end
  /\ store w' = store w
  /\ servers w' = servers w.
Proof.
  intros Hos Hsh Hso. cbn zeta. cbn [step]. unfold launch. rewrite Hso.
  rewrite (spawnWithBash_shell quote host _ _ _ Hos Hsh). cbn [fst].
  match goal with
  | |- context [match ?x with Ok _ => _ | Throw _ => _ end] =>
      destruct x as [call|e]
  end; world_simpl; rewrite ?app_nil_r; auto.
Qed.

(** X9: on the direct path every launch of the same client takes one more
    token off its argv: the launch number [i] (from 0) runs token [i] as the
    program with the tokens after it as arguments, and once the argv is
    used up the program is [undefined] and the arguments are empty. *)
Theorem relaunch_direct_consumes (c : cid) (host : Host) (so : Closure)
    (n : nat) (w : World) (a : list jsval) :
  isUnixLike host = false \/ isBashOrZsh (resolveShell host) = false ->
  servers w !! c = Some so ->
  store w !! cl_cmd so = Some a ->
  let w' := run quote (replicate n (ActLaunch c host)) w in
  trace w' = trace w
             ++ ((fun i => EvSpawn c (CrossSpawn (default JUndefined (a !! i))
                                        (drop (S i) a) (cl_env so)))
                 <$> seq 0 n)
  /\ store w' !! cl_cmd so = Some (drop n a).
Proof.
  intros Hdirect. cbn zeta. revert w a.
  induction n as [|n IH]; intros w a Hso Ha.
  - cbn. rewrite app_nil_r. split; [reflexivity|exact Ha].
  - cbn [replicate].
    change (run quote (ActLaunch c host :: replicate n (ActLaunch c host)) w)
      with (run quote (replicate n (ActLaunch c host))
              (step quote (ActLaunch c host) w)).
    destruct (launch_direct c host w so a Hdirect Hso Ha) as (Ht & Hst & Hs).
    cbn zeta in Ht, Hst, Hs.
    assert (Ha1 : store (step quote (ActLaunch c host) w) !! cl_cmd so
                  = Some (drop 1 a))
      by (rewrite Hst; apply lookup_insert_eq).
    rewrite <- Hs in Hso.
    destruct (IH _ (drop 1 a) Hso Ha1) as [IHt IHs].
    split.
    + rewrite IHt, Ht, <- app_assoc. cbn [seq fmap list_fmap app].
      do 2 f_equal. rewrite <- fmap_S_seq, <- list_fmap_compose.
      apply list_fmap_ext. intros i x _. cbn.
      rewrite lookup_drop, drop_drop. reflexivity.
    + rewrite IHs, drop_drop. reflexivity.
Qed.

(** X10: on the login-shell path the argv is only read: any number of
    launches of the same client issue the same spawn, or none at all when
    the quoting throws, and the heap stays as it was. *)
Theorem relaunch_shell_repeats (c : cid) (host : Host) (so : Closure)
    (n : nat) (w : World) :
  isUnixLike host = true ->
  isBashOrZsh (resolveShell host) = true ->
  servers w !! c = Some so ->
  let w' := run quote (replicate n (ActLaunch c host)) w in
  trace w' = trace w
             ++ match fst (spawnWithBash quote host (cl_cmd so) (cl_env so) (store w)) with
                | Ok call => replicate n (EvSpawn c call)
                | Throw _ => []
                end
  /\ store w' = store w.
Proof.
  intros Hos Hsh. cbn zeta. revert w.
  induction n as [|n IH]; intros w Hso.
  - cbn. destruct (fst _); rewrite app_nil_r; auto.
  - cbn [replicate].
    change (run quote (ActLaunch c host :: replicate n (ActLaunch c host)) w)
      with (run quote (replicate n (ActLaunch c host))
              (step quote (ActLaunch c host) w)).
    destruct (launch_shell c host w so Hos Hsh Hso) as (Ht & Hst & Hs).
    cbn zeta in Ht, Hst, Hs. rewrite <- Hs in Hso.
    destruct (IH _ Hso) as [IHt IHs]. rewrite Hst in IHt, IHs.
    split; [|exact IHs]. rewrite IHt, Ht, <- app_assoc.
    destruct (fst _); reflexivity.
Qed.

(** What a start that goes through leaves for the launch of the new
    client: its closure and its argv. *)
Lemma started_for_launch (ed : Editor) (w : World) (s : jstring) :
  commandOptions (vsconfig ed) = JStr s ->
  existsSync ed (markerPath (firstWorkspace ed)) = true ->
  let w1 := snd (startLanguageServer ed w) in
  trace w1 = trace w ++ [EvWatcher watched; EvNew (next_cid w); EvStart (next_cid w)]
  /\ servers w1 !! next_cid w
       = Some {| cl_cmd := next_loc w; cl_env := commonOptions (firstWorkspace ed) |}
  /\ store w1 !! next_loc w = Some (argvOf (vsconfig ed) s).
Proof.
  intros Hs Hmarker. cbn zeta.
  pose proof (startLanguageServer_cases ed w) as H.
  rewrite (buildCommand_shape (vsconfig ed) s Hs), Hmarker in H. rewrite H.
  cbn [snd startedWorld trace servers store]. rewrite <- !app_assoc.
  rewrite !lookup_insert_eq. auto.
Qed.

(** X11: a start that goes through, followed by the launch of the new
    client on a host without bash or zsh: the program is the configured
    bundler (or "bundle") under bundler and the configured command (or
    "srb") otherwise, its arguments are the rest of the argv just built, and
    the options are those of [commonOptions] for the first workspace
    folder. *)
Theorem start_then_direct_launch (ed : Editor) (w : World) (s : jstring)
    (host : Host) :
  commandOptions (vsconfig ed) = JStr s ->
  existsSync ed (markerPath (firstWorkspace ed)) = true ->
  isUnixLike host = false \/ isBashOrZsh (resolveShell host) = false ->
  exists program args,
    argvOf (vsconfig ed) s = program :: args
    /\ program
       = (if truthy (useBundler (vsconfig ed))
          then js_or (bundlerPath (vsconfig ed)) (JStr (js "bundle"))
          else js_or (commandPath (vsconfig ed)) (JStr (js "srb")))
    /\ trace (step quote (ActLaunch (next_cid w) host)
                (snd (startLanguageServer ed w)))
       = trace w ++ [EvWatcher watched; EvNew (next_cid w); EvStart (next_cid w);
                     EvSpawn (next_cid w)
                       (CrossSpawn program args
                          (commonOptions (firstWorkspace ed)))].
Proof.
  intros Hs Hmarker Hdirect.
  destruct (started_for_launch ed w s Hs Hmarker) as (Ht & Hso & Ha).
  cbn zeta in Ht, Hso, Ha.
  destruct (launch_direct _ host _ _ _ Hdirect Hso Ha) as (Ht' & _).
  cbn zeta in Ht'. cbn [cl_cmd cl_env] in Ht'.
  assert (Hargv : exists program args,
            argvOf (vsconfig ed) s = program :: args
            /\ program
               = (if truthy (useBundler (vsconfig ed))
                  then js_or (bundlerPath (vsconfig ed)) (JStr (js "bundle"))
                  else js_or (commandPath (vsconfig ed)) (JStr (js "srb")))).
  { unfold argvOf, launcher, js_or.
    destruct (truthy (useBundler (vsconfig ed))); eexists; eexists;
      (split; [reflexivity|reflexivity]). }
  destruct Hargv as (program & args & Hargv & Hprog).
  exists program, args. split; [exact Hargv|]. split; [exact Hprog|].
  rewrite Ht', Ht, Hargv, <- app_assoc. reflexivity.
Qed.

(** X12: a start that goes through in a workspace folder [dir], followed
    by the launch of the new client on a bash or zsh host: the shell gets
    "-l", "-c" and the quoted "cd dir", " && " and the quoted argv just
    built, with [dir] as "cwd" in the options. *)
Theorem start_then_shell_launch (ed : Editor) (w : World) (s : jstring)
    (host : Host) (c0 : N) (dir : jstring) (qcd qdir : jstring)
    (qs : list jstring) :
  commandOptions (vsconfig ed) = JStr s ->
  existsSync ed (markerPath (firstWorkspace ed)) = true ->
  firstWorkspace ed = Some (c0 :: dir) ->
  isUnixLike host = true ->
  isBashOrZsh (resolveShell host) = true ->
  quoteAll quote (argvOf (vsconfig ed) s) = Ok qs ->
  quote (JStr (js "cd")) = Ok qcd ->
  quote (JStr (c0 :: dir)) = Ok qdir ->
  trace (step quote (ActLaunch (next_cid w) host) (snd (startLanguageServer ed w)))
    = trace w ++ [EvWatcher watched; EvNew (next_cid w); EvStart (next_cid w);
                  EvSpawn (next_cid w)
                    (ChildProcessSpawn (resolveShell host)
                       [js "-l"; js "-c";
                        join (js " ") [qcd; qdir] ++ js " && " ++ join (js " ") qs]
                       ({["cwd" := JStr (c0 :: dir)]}
                        ∪ {["shell" := JStr (resolveShell host)]}))].
Proof.
  intros Hs Hmarker Hdir Hos Hsh Hqs Hcd Hqdir.
  destruct (started_for_launch ed w s Hs Hmarker) as (Ht & Hso & Ha).
  cbn zeta in Ht, Hso, Ha.
  destruct (launch_shell _ host _ _ Hos Hsh Hso) as (Ht' & _).
  cbn zeta in Ht'. cbn [cl_cmd cl_env] in Ht'.
  rewrite (spawnWithBash_shell quote host _ _ _ Hos Hsh) in Ht'.
  unfold deref, shellEscape in Ht'. rewrite Ha in Ht'.
  cbn [from_option id] in Ht'. rewrite Hqs, Hdir in Ht'.
  cbn [commonOptions rbind fst] in Ht'.
  unfold prop in Ht'. rewrite lookup_insert_eq in Ht'.
  cbn [from_option id truthy quoteAll rbind] in Ht'.
  rewrite Hcd, Hqdir in Ht'. cbn [rbind fst] in Ht'.
  rewrite Ht', Ht, <- app_assoc. reflexivity.
Qed.

(** X13: without a workspace folder the marker is looked up at the
    relative path "null/sorbet/config"; when that file exists the server is
    started without a working directory, so that on a bash or zsh host the
    command has no "cd" in front. *)
Theorem no_workspace_start (ed : Editor) (s : jstring) (host : Host)
    (qs : list jstring) :
  workspaceFolders ed = None \/ workspaceFolders ed = Some [] ->
  commandOptions (vsconfig ed) = JStr s ->
  (existsSync ed (js "null/sorbet/config") = false ->
   trace (activate ed) = [EvInfo notFound])
  /\ (existsSync ed (js "null/sorbet/config") = true ->
      isUnixLike host = true ->
      isBashOrZsh (resolveShell host) = true ->
      quoteAll quote (argvOf (vsconfig ed) s) = Ok qs ->
      trace (step quote (ActLaunch 0 host) (activate ed))
        = [EvWatcher watched; EvNew 0; EvStart 0;
           EvSpawn 0 (ChildProcessSpawn (resolveShell host)
                        [js "-l"; js "-c"; join (js " ") qs]
                        (∅ ∪ {["shell" := JStr (resolveShell host)]}))]).
Proof.
  intros Hws Hs.
  assert (Hfw : firstWorkspace ed = None).
  { unfold firstWorkspace. destruct Hws as [->| ->]; reflexivity. }
  assert (Hpath : markerPath (firstWorkspace ed) = js "null/sorbet/config").
  { rewrite Hfw. reflexivity. }
  split.
  - intros Hmarker. unfold activate.
    pose proof (startLanguageServer_cases ed init) as H.
    rewrite (buildCommand_shape (vsconfig ed) s Hs), Hpath, Hmarker in H.
    rewrite H. reflexivity.
  - intros Hmarker Hos Hsh Hqs. rewrite <- Hpath in Hmarker. unfold activate.
    destruct (started_for_launch ed init s Hs Hmarker) as (Ht & Hso & Ha).
    cbn zeta in Ht, Hso, Ha. cbn [init next_cid next_loc trace app] in Ht, Hso, Ha.
    destruct (launch_shell 0 host _ _ Hos Hsh Hso) as (Ht' & _).
    cbn zeta in Ht'. cbn [cl_cmd cl_env] in Ht'.
    rewrite (spawnWithBash_shell quote host _ _ _ Hos Hsh) in Ht'.
    unfold deref, shellEscape in Ht'. rewrite Ha in Ht'.
    cbn [from_option id] in Ht'. rewrite Hqs, Hfw in Ht'.
    cbn [commonOptions rbind fst] in Ht'.
    unfold prop in Ht'. rewrite lookup_empty in Ht'.
    cbn [from_option id truthy rbind fst] in Ht'.
    rewrite Ht', Ht. reflexivity.
Qed.

End LaunchFacts.

Lemma relaunch_direct_consumes_witness :
  trace (run quotePlain (replicate 6 (ActLaunch 0 windows)) projectOpen)
    = trace projectOpen
      ++ ((fun i =>
             EvSpawn 0
               (CrossSpawn
                  (default JUndefined
                     ([JStr (js "srb"); JStr (js "tc"); JStr (js "--lsp");
                       enableExperimental; disableWatchman] !! i))
                  (drop (S i)
                     [JStr (js "srb"); JStr (js "tc"); JStr (js "--lsp");
                      enableExperimental; disableWatchman])
                  (commonOptions (Some (js "/proj")))))
          <$> seq 0 6)
  /\ store (run quotePlain (replicate 6 (ActLaunch 0 windows)) projectOpen) !! 0
     = Some [].
Proof.
  exact (relaunch_direct_consumes quotePlain 0 windows
           {| cl_cmd := 0; cl_env := commonOptions (Some (js "/proj")) |}
           6 projectOpen
           [JStr (js "srb"); JStr (js "tc"); JStr (js "--lsp");
            enableExperimental; disableWatchman]
           (or_introl eq_refl) eq_refl eq_refl).
Defined.

Lemma relaunch_shell_repeats_witness :
  trace (run quotePlain (replicate 3 (ActLaunch 0 zshMac)) projectOpen)
    = trace projectOpen
      ++ replicate 3
           (EvSpawn 0
              (loginShell (js "cd /proj && srb tc --lsp --enable-all-experimental-lsp-features --disable-watchman")))
  /\ store (run quotePlain (replicate 3 (ActLaunch 0 zshMac)) projectOpen)
     = store projectOpen.
Proof.
  exact (relaunch_shell_repeats quotePlain 0 zshMac
           {| cl_cmd := 0; cl_env := commonOptions (Some (js "/proj")) |}
           3 projectOpen eq_refl eq_refl eq_refl).
Defined.

Lemma start_then_direct_launch_witness :
  exists program args,
    argvOf bundlerConfig (js " --debug-log-file=/tmp/s.log ") = program :: args
    /\ program = JStr (js "bin/bundle")
    /\ trace (step quotePlain (ActLaunch 0 fishLinux)
                (snd (startLanguageServer (projEditor bundlerConfig true) init)))
       = [EvWatcher watched; EvNew 0; EvStart 0;
          EvSpawn 0 (CrossSpawn program args (commonOptions (Some (js "/proj"))))].
Proof.
  exact (start_then_direct_launch quotePlain (projEditor bundlerConfig true) init
           (js " --debug-log-file=/tmp/s.log ") fishLinux
           eq_refl eq_refl (or_intror eq_refl)).
Defined.

Lemma start_then_shell_launch_witness :
  trace (step quotePlain (ActLaunch 0 zshMac)
           (snd (startLanguageServer (projEditor defaultConfig true) init)))
    = [EvWatcher watched; EvNew 0; EvStart 0;
       EvSpawn 0
         (loginShell (js "cd /proj && srb tc --lsp --enable-all-experimental-lsp-features --disable-watchman"))].
Proof.
  exact (start_then_shell_launch quotePlain (projEditor defaultConfig true) init
           [] zshMac 47%N (js "proj") (js "cd") (js "/proj")
           [js "srb"; js "tc"; js "--lsp";
            js "--enable-all-experimental-lsp-features"; js "--disable-watchman"]
           eq_refl eq_refl eq_refl eq_refl eq_refl eq_refl eq_refl eq_refl).
Defined.

Lemma no_workspace_start_witness :
  trace (step quotePlain (ActLaunch 0 zshMac) (activate (bareEditor defaultConfig)))
    = [EvWatcher watched; EvNew 0; EvStart 0;
       EvSpawn 0 (ChildProcessSpawn (js "/bin/zsh")
                    [js "-l"; js "-c";
                     js "srb tc --lsp --enable-all-experimental-lsp-features --disable-watchman"]
                    (∅ ∪ {["shell" := JStr (js "/bin/zsh")]}))].
Proof.
  exact (proj2 (no_workspace_start quotePlain (bareEditor defaultConfig) [] zshMac
                  [js "srb"; js "tc"; js "--lsp";
                   js "--enable-all-experimental-lsp-features";
                   js "--disable-watchman"]
                  (or_introl eq_refl) eq_refl)
           eq_refl eq_refl eq_refl eq_refl).
Defined.

(** ** Restarts that start nothing *)

Section LifecycleMore.

Variable quote : jsval -> result jstring.

(** X14: the restart command without a handle starts right away, with no
    stop, and confirms in either case: after a start that went through, and
    also after the notice that the marker file is missing, when nothing was
    started. *)
Theorem idle_restart_confirms (ed ed' : Editor) (w : World) (s : jstring) :
  disposableClient w = None ->
  jobs w = [] ->
  commandOptions (vsconfig ed) = JStr s ->
  let w' := run quote [ActRestart ed; ActJob ed'] w in
  (existsSync ed (markerPath (firstWorkspace ed)) = false ->
   trace w' = trace w ++ [EvInfo notFound; EvInfo restarted]
   /\ client w' = client w /\ disposableClient w' = None)
  /\ (existsSync ed (markerPath (firstWorkspace ed)) = true ->
      trace w' = trace w ++ [EvWatcher watched; EvNew (next_cid w);
                             EvStart (next_cid w); EvInfo restarted]
      /\ client w' = Some (next_cid w)
      /\ disposableClient w' = Some (next_cid w)).
Proof.
  intros Hd Hj Hs. cbn zeta. unfold run. cbn [foldl step].
  unfold restartLanguageServer, bind. rewrite Hd.
  pose proof (startLanguageServer_cases ed w) as H.
  rewrite (buildCommand_shape (vsconfig ed) s Hs) in H.
  split; intros Hmarker; rewrite Hmarker in H; rewrite H;
    unfold runJob, bind, popJob; world_simpl; cbn [startedWorld jobs];
    rewrite Hj; cbn [app]; world_simpl; cbn [startedWorld trace client
      disposableClient]; rewrite <- ?app_assoc; auto.
Qed.

(** X15: a restart whose callback finds settings it cannot read: the old
    client is stopped and its handle disposed of, then the callback ends
    with the TypeError.  No client is made, no confirmation is queued, and
    [client] still holds the stopped client. *)
Theorem restart_unreadable_settings (ed ed' : Editor) (w : World) (c : cid) :
  reachable quote w ->
  disposableClient w = Some c ->
  jobs w = [] ->
  (forall s, commandOptions (vsconfig ed') <> JStr s) ->
  let w' := run quote [ActRestart ed; ActSettle (next_pid w) true; ActJob ed'] w in
  trace w' = trace w ++ [EvStop c (next_pid w); EvStopDone (next_pid w);
                         EvResume (next_pid w); EvDispose c]
  /\ jobs w' = []
  /\ client w' = Some c
  /\ disposableClient w' = Some c
  /\ next_cid w' = next_cid w.
Proof.
  intros Hreach Hd Hj Hns. cbn zeta.
  pose proof (reachable_consistent quote w Hreach) as Hw.
  unfold run. cbn [foldl step].
  unfold restartLanguageServer, bind, clientStop.
  rewrite Hd. rewrite <- (same_handle w Hw), Hd. cbn [snd ret].
  unfold settle. cbn [stops]. rewrite lookup_insert_eq. cbn [snd andb].
  unfold runJob, bind, popJob. cbn [jobs]. rewrite Hj. cbn [app].
  unfold resumeRestart, bind, disposeClient. world_simpl.
  match goal with
  | |- context [startLanguageServer ed' ?w0] =>
      pose proof (startLanguageServer_cases ed' w0) as H
  end.
  assert (Hthrow : buildCommand (vsconfig ed') = Throw TypeError).
  { unfold buildCommand.
    destruct (commandOptions (vsconfig ed')) as [| | | |s|]; try reflexivity.
    destruct (Hns s eq_refl). }
  rewrite Hthrow in H. rewrite H. world_simpl. rewrite <- !app_assoc. auto 10.
Qed.

(** A queued confirmation, when its turn comes, shows the notice and
    changes nothing else. *)
Lemma runJob_restarted (ed : Editor) (w : World) (js' : list job) :
  jobs w = JobRestarted :: js' ->
  let w' := step quote (ActJob ed) w in
  trace w' = trace w ++ [EvInfo restarted]
  /\ jobs w' = js'
  /\ client w' = client w
  /\ disposableClient w' = disposableClient w
  /\ next_cid w' = next_cid w
  /\ next_pid w' = next_pid w.
Proof.
  intros Hj. cbn zeta. cbn [step]. unfold runJob, bind, popJob. rewrite Hj.
  world_simpl. auto 10.
Qed.

(** The callback of a restart when the marker file is gone. *)
Lemma callback_marker_gone (ed ed' : Editor) (w : World) (c : cid) (s : jstring) :
  consistent w ->
  disposableClient w = Some c ->
  jobs w = [] ->
  commandOptions (vsconfig ed') = JStr s ->
  existsSync ed' (markerPath (firstWorkspace ed')) = false ->
  let w' := run quote [ActRestart ed; ActSettle (next_pid w) true; ActJob ed'] w in
  trace w' = trace w ++ [EvStop c (next_pid w); EvStopDone (next_pid w);
                         EvResume (next_pid w); EvDispose c; EvInfo notFound]
  /\ jobs w' = [JobRestarted]
  /\ client w' = Some c
  /\ disposableClient w' = Some c
  /\ next_cid w' = next_cid w
  /\ next_pid w' = S (next_pid w).
Proof.
  intros Hw Hd Hj Hs Hmarker. cbn zeta. unfold run. cbn [foldl step].
  unfold restartLanguageServer, bind, clientStop.
  rewrite Hd. rewrite <- (same_handle w Hw), Hd. cbn [snd ret].
  unfold settle. cbn [stops]. rewrite lookup_insert_eq. cbn [snd andb].
  unfold runJob, bind, popJob. cbn [jobs]. rewrite Hj. cbn [app].
  unfold resumeRestart, bind, disposeClient. world_simpl.
  match goal with
  | |- context [startLanguageServer ed' ?w0] =>
      pose proof (startLanguageServer_cases ed' w0) as H
  end.
  rewrite (buildCommand_shape (vsconfig ed') s Hs), Hmarker in H.
  rewrite H. world_simpl. rewrite <- !app_assoc. auto 10.
Qed.

(** X16: a restart whose callback finds the marker file gone: the old
    client is stopped and its handle disposed of, the notice is shown, and
    the restart is confirmed all the same.  [client] still holds the
    stopped client, so that the next restart command stops it once more. *)
Theorem restart_marker_gone (ed ed' ed1 : Editor) (w : World) (c : cid)
    (s : jstring) :
  reachable quote w ->
  disposableClient w = Some c ->
  jobs w = [] ->
  commandOptions (vsconfig ed') = JStr s ->
  existsSync ed' (markerPath (firstWorkspace ed')) = false ->
  let w' := run quote [ActRestart ed; ActSettle (next_pid w) true;
                       ActJob ed'; ActJob ed'; ActRestart ed1] w in
  trace w' = trace w ++ [EvStop c (next_pid w); EvStopDone (next_pid w);
                         EvResume (next_pid w); EvDispose c;
                         EvInfo notFound; EvInfo restarted;
                         EvStop c (S (next_pid w))]
  /\ client w' = Some c
  /\ next_cid w' = next_cid w.
Proof.
  intros Hreach Hd Hj Hs Hmarker. cbn zeta.
  pose proof (reachable_consistent quote w Hreach) as Hw.
  set (w3 := run quote [ActRestart ed; ActSettle (next_pid w) true; ActJob ed'] w).
  change (run quote [ActRestart ed; ActSettle (next_pid w) true;
                     ActJob ed'; ActJob ed'; ActRestart ed1] w)
    with (step quote (ActRestart ed1) (step quote (ActJob ed') w3)).
  destruct (callback_marker_gone ed ed' w c s Hw Hd Hj Hs Hmarker)
    as (Ht3 & Hj3 & Hc3 & Hd3 & Hn3 & Hp3).
  cbn zeta in Ht3, Hj3, Hc3, Hd3, Hn3, Hp3. fold w3 in Ht3, Hj3, Hc3, Hd3, Hn3, Hp3.
  destruct (runJob_restarted ed' w3 [] Hj3) as (Ht4 & _ & Hc4 & Hd4 & Hn4 & Hp4).
  cbn zeta in Ht4, Hc4, Hd4, Hn4, Hp4.
  set (w4 := step quote (ActJob ed') w3) in *.
  assert (Hw4 : consistent w4).
  { subst w4 w3. apply step_consistent. apply run_consistent. exact Hw. }
  rewrite Hd3 in Hd4.
  destruct (restart_with_handle quote ed1 w4 c Hw4 Hd4)
    as (w5 & <- & Ht5 & _ & _ & _ & Hn5 & Hc5 & _).
  split; [|split; [exact Hc5|congruence]].
  rewrite Ht5, Ht4, Ht3, Hp4, Hp3, <- !app_assoc. reflexivity.
Qed.

End LifecycleMore.

(** ** Nothing starts by itself *)

Section DormantFacts.

Variable quote : jsval -> result jstring.

Lemma dormant_step (a : action) (w : World) :
  isRestart a = false ->
  dormant w ->
  dormant (step quote a w)
  /\ client (step quote a w) = client w
  /\ disposableClient (step quote a w) = disposableClient w
  /\ exists evs,
       trace (step quote a w) = trace w ++ evs
       /\ Forall passive evs
       /\ (jobs w = [] ->
           jobs (step quote a w) = []
           /\ Forall (fun e => isInfo e = false) evs).
Proof.
  intros Ha [Hst Hjb]. unfold dormant.
  destruct a as [ed|q ok|ed|c host|]; [discriminate Ha| | | |]; cbn [step].
  - unfold settle. destruct (stops w !! q) as [[|]|] eqn:Hq.
    + destruct (Hst q Hq).
    + world_simpl. rewrite andb_false_r. split; [split|].
      * intros q' Hq'. apply lookup_delete_Some in Hq' as [_ Hq'].
        exact (Hst q' Hq').
      * exact Hjb.
      * split; [reflexivity|]. split; [reflexivity|].
        eexists. split; [reflexivity|]. split.
        -- repeat constructor. destruct ok; exact I.
        -- intros Hj. split; [exact Hj|]. repeat constructor.
           destruct ok; reflexivity.
    + world_simpl. split; [split; assumption|]. split; [reflexivity|].
      split; [reflexivity|]. exists []. rewrite app_nil_r.
      split; [reflexivity|]. split; [constructor|]. intros Hj.
      split; [exact Hj|constructor].
  - unfold runJob, bind, popJob. destruct (jobs w) as [|[q|] js'] eqn:Hj.
    + world_simpl. split; [split; [exact Hst|rewrite Hj; exact Hjb]|].
      split; [reflexivity|]. split; [reflexivity|]. exists [].
      rewrite app_nil_r. split; [reflexivity|]. split; [constructor|].
      intros _. split; [exact Hj|constructor].
    + exfalso. apply (Hjb q). apply elem_of_cons. left. reflexivity.
    + world_simpl. split; [split|].
      * exact Hst.
      * intros q Hq. apply (Hjb q). apply elem_of_cons. right. exact Hq.
      * split; [reflexivity|]. split; [reflexivity|].
        exists [EvInfo restarted]. split; [reflexivity|].
        split; [repeat constructor|]. intros Hnil. discriminate Hnil.
  - destruct (launch_cases quote c host w)
      as (w' & -> & Hc & Hd & _ & _ & Hs & _ & Hj & Ht).
    split; [split; [rewrite Hs; exact Hst|rewrite Hj; exact Hjb]|].
    split; [exact Hc|]. split; [exact Hd|].
    destruct Ht as [Ht|(call & _ & Ht)].
    + exists []. rewrite app_nil_r. split; [exact Ht|]. split; [constructor|].
      intros Hnil. split; [rewrite Hj; exact Hnil|constructor].
    + exists [EvSpawn c call]. split; [exact Ht|]. split; [repeat constructor|].
      intros Hnil. split; [rewrite Hj; exact Hnil|repeat constructor].
  - unfold deactivate, bind, clientStop. destruct (client w) as [c|] eqn:Hc.
    + world_simpl. split; [split|].
      * intros q Hq. destruct (decide (next_pid w = q)) as [<-|Hne].
        -- rewrite lookup_insert_eq in Hq. discriminate Hq.
        -- rewrite lookup_insert_ne in Hq by exact Hne. exact (Hst q Hq).
      * exact Hjb.
      * split; [reflexivity|]. split; [reflexivity|]. eexists.
        split; [reflexivity|]. split; [repeat constructor|].
        intros Hnil. split; [exact Hnil|repeat constructor].
    + world_simpl. split; [split; assumption|]. split; [exact Hc|].
      split; [reflexivity|]. exists []. rewrite app_nil_r.
      split; [reflexivity|]. split; [constructor|].
      intros Hnil. split; [exact Hnil|constructor].
Qed.

Lemma dormant_run (sched : list action) (w : World) :
  forallb (fun a => negb (isRestart a)) sched = true ->
  dormant w ->
  dormant (run quote sched w)
  /\ client (run quote sched w) = client w
  /\ disposableClient (run quote sched w) = disposableClient w
  /\ exists evs,
       trace (run quote sched w) = trace w ++ evs
       /\ Forall passive evs
       /\ (jobs w = [] ->
           jobs (run quote sched w) = []
           /\ Forall (fun e => isInfo e = false) evs).
Proof.
  revert w. induction sched as [|a sched IH]; intros w Hs Hw.
  - split; [exact Hw|]. split; [reflexivity|]. split; [reflexivity|].
    exists []. rewrite app_nil_r. split; [reflexivity|]. split; [constructor|].
    intros Hj. split; [exact Hj|constructor].
  - cbn [forallb] in Hs. apply andb_true_iff in Hs as [Ha Hs].
    apply negb_true_iff in Ha.
    destruct (dormant_step a w Ha Hw) as (Hw1 & Hc1 & Hd1 & evs1 & Ht1 & Hp1 & Hj1).
    destruct (IH (step quote a w) Hs Hw1)
      as (Hw2 & Hc2 & Hd2 & evs2 & Ht2 & Hp2 & Hj2).
    change (run quote (a :: sched) w) with (run quote sched (step quote a w)).
    split; [exact Hw2|]. split; [congruence|]. split; [congruence|].
    exists (evs1 ++ evs2). split; [rewrite Ht2, Ht1, <- app_assoc; reflexivity|].
    split; [apply Forall_app; split; assumption|].
    intros Hj. destruct (Hj1 Hj) as [Hj1' Hi1]. destruct (Hj2 Hj1') as [Hj2' Hi2].
    split; [exact Hj2'|]. apply Forall_app. split; assumption.
Qed.

(** X17: nothing starts by itself.  While no restart waits for a stop and
    no restart callback is queued, whatever the client and the editor do
    short of a restart command (handshakes ending, jobs running, servers
    launched again, deactivation), no client is made, started or disposed
    of and no file watcher is made; [client] and [disposableClient] stay as
    they are. *)
Theorem no_start_without_restart (sched : list action) (w : World) :
  forallb (fun a => negb (isRestart a)) sched = true ->
  dormant w ->
  client (run quote sched w) = client w
  /\ disposableClient (run quote sched w) = disposableClient w
  /\ dormant (run quote sched w)
  /\ exists evs,
       trace (run quote sched w) = trace w ++ evs /\ Forall passive evs.
Proof.
  intros Hs Hw.
  destruct (dormant_run sched w Hs Hw) as (Hw' & Hc & Hd & evs & Ht & Hp & _).
  split; [exact Hc|]. split; [exact Hd|]. split; [exact Hw'|].
  exists evs. split; assumption.
Qed.

(** X18: a restart whose stop handshake is rejected stalls for good: short
    of a new restart command, no client is made or started, the old handle
    is not disposed of, no notice of any kind is shown, and [client] keeps
    the client whose stop failed. *)
Theorem rejected_stop_stalls (ed : Editor) (sched : list action) (w : World)
    (c : cid) :
  reachable quote w ->
  disposableClient w = Some c ->
  dormant w ->
  jobs w = [] ->
  forallb (fun a => negb (isRestart a)) sched = true ->
  let w' := run quote sched
              (run quote [ActRestart ed; ActSettle (next_pid w) false] w) in
  client w' = Some c
  /\ disposableClient w' = Some c
  /\ exists evs,
       trace w' = trace w ++ [EvStop c (next_pid w); EvStopFailed (next_pid w)]
                  ++ evs
       /\ Forall passive evs
       /\ Forall (fun e => isInfo e = false) evs.
Proof.
  intros Hreach Hd [Hst Hjb] Hj Hs. cbn zeta.
  pose proof (reachable_consistent quote w Hreach) as Hw.
  set (w2 := run quote [ActRestart ed; ActSettle (next_pid w) false] w).
  assert (H2 : client w2 = Some c /\ disposableClient w2 = Some c
               /\ trace w2 = trace w ++ [EvStop c (next_pid w);
                                         EvStopFailed (next_pid w)]
               /\ jobs w2 = []
               /\ stops w2 = delete (next_pid w) (<[next_pid w := true]> (stops w))).
  { subst w2. unfold run. cbn [foldl step].
    unfold restartLanguageServer, settle, bind, clientStop.
    rewrite Hd. rewrite <- (same_handle w Hw), Hd. world_simpl.
    rewrite lookup_insert_eq. world_simpl. cbn [andb].
    rewrite <- !app_assoc. auto 10. }
  destruct H2 as (Hc2 & Hd2 & Ht2 & Hj2 & Hs2).
  assert (Hdorm : dormant w2).
  { split.
    - intros q. rewrite Hs2, delete_insert_eq. intros Hq.
      apply lookup_delete_Some in Hq as [_ Hq]. exact (Hst q Hq).
    - intros q. rewrite Hj2. apply not_elem_of_nil. }
  destruct (dormant_run sched w2 Hs Hdorm) as (_ & Hc & Hd' & evs & Ht & Hp & Hi).
  split; [congruence|]. split; [congruence|].
  exists evs. split; [rewrite Ht, Ht2, <- app_assoc; reflexivity|].
  split; [exact Hp|]. exact (proj2 (Hi Hj2)).
Qed.

End DormantFacts.

(** ** One handle at a time *)

Lemma latestClient_grow (w w' : World) (evs : list event) :
  client w' = client w ->
  trace w' = trace w ++ evs ->
  (forall c, EvNew c ∉ evs) ->
  latestClient w -> latestClient w'.
Proof.
  unfold latestClient. intros Hc Ht Hevs. rewrite Hc, Ht.
  destruct (client w) as [c|].
  - intros (t1 & t2 & -> & Hno). exists t1, (t2 ++ evs). split.
    + rewrite <- app_assoc. reflexivity.
    + intros c' Hin. apply elem_of_app in Hin as [Hin|Hin].
      * exact (Hno c' Hin).
      * exact (Hevs c' Hin).
  - intros Hno c Hin. apply elem_of_app in Hin as [Hin|Hin].
    + exact (Hno c Hin).
    + exact (Hevs c Hin).
Qed.

Lemma othersDisposed_grow (w w' : World) (evs : list event) :
  disposableClient w' = disposableClient w ->
  trace w' = trace w ++ evs ->
  (forall c, EvNew c ∉ evs) ->
  othersDisposed w -> othersDisposed w'.
Proof.
  intros Hd Ht Hevs H c Hin. rewrite Ht in Hin.
  apply elem_of_app in Hin as [Hin|Hin]; [|destruct (Hevs c Hin)].
  exact (released_grow w w' evs c Hd Ht (H c Hin)).
Qed.

(** Both at once, for steps that make no client. *)
Lemma tidy_grow (w w' : World) (evs : list event) :
  client w' = client w ->
  disposableClient w' = disposableClient w ->
  trace w' = trace w ++ evs ->
  (forall c, EvNew c ∉ evs) ->
  latestClient w /\ othersDisposed w ->
  latestClient w' /\ othersDisposed w'.
Proof.
  intros Hc Hd Ht Hevs [Hl Ho]. split.
  - exact (latestClient_grow w w' evs Hc Ht Hevs Hl).
  - exact (othersDisposed_grow w w' evs Hd Ht Hevs Ho).
Qed.

Lemma tidy_emit (e : event) (w : World) :
  (forall c, e <> EvNew c) ->
  latestClient w /\ othersDisposed w ->
  latestClient (snd (emit e w)) /\ othersDisposed (snd (emit e w)).
Proof.
  intros He. apply (tidy_grow w _ [e]); try reflexivity.
  exact (no_EvNew_single e He).
Qed.

Lemma tidy_same_trace (w w' : World) :
  client w' = client w ->
  disposableClient w' = disposableClient w ->
  trace w' = trace w ->
  latestClient w /\ othersDisposed w ->
  latestClient w' /\ othersDisposed w'.
Proof.
  intros Hc Hd Ht. apply (tidy_grow w w' []); try assumption.
  - rewrite app_nil_r. exact Ht.
  - exact no_EvNew_nil.
Qed.

(** A start, in a world whose current handle, if any, is disposed of. *)
Lemma tidy_start (ed : Editor) (w : World) :
  (forall c, disposableClient w = Some c -> EvDispose c ∈ trace w) ->
  latestClient w /\ othersDisposed w ->
  latestClient (snd (startLanguageServer ed w))
  /\ othersDisposed (snd (startLanguageServer ed w)).
Proof.
  intros Hdisp Hw. pose proof (startLanguageServer_cases ed w) as H.
  destruct (buildCommand (vsconfig ed)) as [cmd|e]; [|rewrite H; exact Hw].
  destruct (existsSync ed (markerPath (firstWorkspace ed))); rewrite H.
  - destruct Hw as [_ Ho]. split.
    + unfold latestClient. cbn [snd startedWorld client trace].
      exists (trace w ++ [EvWatcher watched]), [EvStart (next_cid w)].
      split; [rewrite <- !app_assoc; reflexivity|].
      intros c' Hin. apply list_elem_of_singleton in Hin. discriminate Hin.
    + intros c. unfold released. cbn [snd startedWorld disposableClient trace].
      rewrite !elem_of_app, !list_elem_of_singleton.
      intros [[[Hin|Hin]|Hin]|Hin]; try discriminate Hin.
      * right. do 3 left. destruct (Ho c Hin) as [Hcur|Hold].
        -- exact (Hdisp c Hcur).
        -- exact Hold.
      * injection Hin as ->. left. reflexivity.
  - apply tidy_emit; [discriminate|exact Hw].
Qed.

Lemma tidy_clientStop (waiting : bool) (w : World) :
  latestClient w /\ othersDisposed w ->
  latestClient (snd (clientStop waiting w))
  /\ othersDisposed (snd (clientStop waiting w)).
Proof.
  intros Hw. unfold clientStop. destruct (client w) as [c|] eqn:Hc; [|exact Hw].
  apply (tidy_grow w _ [EvStop c (next_pid w)]); try reflexivity.
  - cbn [snd client]. symmetry. exact Hc.
  - apply no_EvNew_single. discriminate.
  - exact Hw.
Qed.

Lemma tidy_enqueue (j : job) (w : World) :
  latestClient w /\ othersDisposed w ->
  latestClient (snd (enqueue j w)) /\ othersDisposed (snd (enqueue j w)).
Proof. apply tidy_same_trace; reflexivity. Qed.

Lemma tidy_restartLanguageServer (ed : Editor) (w : World) :
  latestClient w /\ othersDisposed w ->
  latestClient (snd (restartLanguageServer ed w))
  /\ othersDisposed (snd (restartLanguageServer ed w)).
Proof.
  intros Hw. unfold restartLanguageServer, bind.
  destruct (disposableClient w) as [d|] eqn:Hd.
  - pose proof (tidy_clientStop true w Hw) as H.
    destruct (clientStop true w) as [[p|e] w1]; exact H.
  - assert (Hdisp : forall c, disposableClient w = Some c -> EvDispose c ∈ trace w)
      by (intros c Hc; congruence).
    pose proof (tidy_start ed w Hdisp Hw) as H.
    destruct (startLanguageServer ed w) as [[[]|e] w1]; cbn [snd] in H |- *.
    + exact (tidy_enqueue JobRestarted w1 H).
    + exact H.
Qed.

Lemma tidy_resumeRestart (p : pid) (ed : Editor) (w : World) :
  latestClient w /\ othersDisposed w ->
  latestClient (snd (resumeRestart p ed w))
  /\ othersDisposed (snd (resumeRestart p ed w)).
Proof.
  intros Hw. unfold resumeRestart, bind, disposeClient.
  pose proof (tidy_emit (EvResume p) w ltac:(discriminate) Hw) as Hw0.
  world_simpl. world_simpl in Hw0.
  destruct (disposableClient w) as [d|] eqn:Hd; [|exact Hw0].
  world_simpl.
  pose proof (tidy_emit (EvDispose d) _ ltac:(discriminate) Hw0) as Hw1.
  world_simpl in Hw1.
  match goal with
  | |- context [startLanguageServer ed ?w1] =>
      assert (Hdisp : forall c, disposableClient w1 = Some c
                                -> EvDispose c ∈ trace w1)
  end.
  { world_simpl. intros c [= <-]. apply elem_of_app. right.
    apply list_elem_of_singleton. reflexivity. }
  pose proof (tidy_start ed _ Hdisp Hw1) as H.
  match goal with
  | |- context [startLanguageServer ed ?w1] =>
      destruct (startLanguageServer ed w1) as [[[]|e] w2]
  end; cbn [snd] in H |- *.
  - exact (tidy_enqueue JobRestarted w2 H).
  - exact H.
Qed.

Lemma tidy_runJob (ed : Editor) (w : World) :
  latestClient w /\ othersDisposed w ->
  latestClient (snd (runJob ed w)) /\ othersDisposed (snd (runJob ed w)).
Proof.
  intros Hw. unfold runJob, bind, popJob.
  destruct (jobs w) as [|[p|] js']; [exact Hw| |].
  - apply tidy_resumeRestart. revert Hw. apply tidy_same_trace; reflexivity.
  - apply tidy_emit; [discriminate|].
    revert Hw. apply tidy_same_trace; reflexivity.
Qed.

Lemma tidy_settle (p : pid) (ok : bool) (w : World) :
  latestClient w /\ othersDisposed w ->
  latestClient (snd (settle p ok w)) /\ othersDisposed (snd (settle p ok w)).
Proof.
  intros Hw. unfold settle. destruct (stops w !! p) as [waiting|]; [|exact Hw].
  revert Hw.
  apply (tidy_grow w _ [if ok then EvStopDone p else EvStopFailed p]);
    try reflexivity.
  apply no_EvNew_single. destruct ok; discriminate.
Qed.

Lemma tidy_deactivate (w : World) :
  latestClient w /\ othersDisposed w ->
  latestClient (snd (deactivate w)) /\ othersDisposed (snd (deactivate w)).
Proof.
  intros Hw. unfold deactivate, bind.
  destruct (client w) as [c|] eqn:Hc; [|exact Hw].
  pose proof (tidy_clientStop false w Hw) as H.
  destruct (clientStop false w) as [[p|e] w1]; exact H.
Qed.

Lemma tidy_init : latestClient init /\ othersDisposed init.
Proof.
  split.
  - intros c. apply not_elem_of_nil.
  - intros c Hin. destruct (not_elem_of_nil _ Hin).
Qed.

Section HandleFacts.

Variable quote : jsval -> result jstring.

Lemma tidy_step (a : action) (w : World) :
  latestClient w /\ othersDisposed w ->
  latestClient (step quote a w) /\ othersDisposed (step quote a w).
Proof.
  intros Hw. destruct a; cbn [step].
  - exact (tidy_restartLanguageServer ed w Hw).
  - exact (tidy_settle p ok w Hw).
  - exact (tidy_runJob ed w Hw).
  - destruct (launch_cases quote c host w)
      as (w' & -> & Hc & Hd & _ & _ & _ & _ & _ & [Ht|(call & _ & Ht)]).
    + exact (tidy_same_trace w w' Hc Hd Ht Hw).
    + apply (tidy_grow w w' [EvSpawn c call]); try assumption.
      apply no_EvNew_single. discriminate.
  - exact (tidy_deactivate w Hw).
Qed.

Lemma tidy_reachable (w : World) :
  reachable quote w -> latestClient w /\ othersDisposed w.
Proof.
  intros (ed & sched & ->).
  assert (H0 : latestClient (activate ed) /\ othersDisposed (activate ed)).
  { apply tidy_start; [|exact tidy_init]. intros c Hc. discriminate Hc. }
  revert H0. generalize (activate ed). clear ed.
  induction sched as [|a sched IH]; intros w Hw; [exact Hw|].
  exact (IH (step quote a w) (tidy_step a w Hw)).
Qed.

(** X19: in every reachable world the client held in [client] is the one
    that was made last, and [disposableClient] is the handle of that same
    client; while no client was made, both are empty. *)
Theorem current_client_is_latest (w : World) :
  reachable quote w ->
  disposableClient w = client w
  /\ match client w with
     | None => forall c, EvNew c ∉ trace w
     | Some c =>
         exists t1 t2,
           trace w = t1 ++ EvNew c :: t2 /\ forall c', EvNew c' ∉ t2
     end.
Proof.
  intros Hreach. split.
  - exact (same_handle w (reachable_consistent quote w Hreach)).
  - exact (proj1 (tidy_reachable w Hreach)).
Qed.

(** X20: in every reachable world at most one handle is left: every client
    ever made, other than the current one, had its handle disposed of. *)
Theorem older_clients_disposed (w : World) (c : cid) :
  reachable quote w ->
  EvNew c ∈ trace w ->
  client w = Some c \/ EvDispose c ∈ trace w.
Proof.
  intros Hreach Hin.
  destruct (proj2 (tidy_reachable w Hreach) c Hin) as [Hcur|Hold].
  - left. rewrite <- (same_handle w (reachable_consistent quote w Hreach)).
    exact Hcur.
  - right. exact Hold.
Qed.

End HandleFacts.

(** ** The further properties on the examples *)

Lemma projectOpen_dormant : dormant projectOpen.
Proof.
  split; intros q.
  - vm_compute. discriminate.
  - vm_compute. apply not_elem_of_nil.
Qed.

Lemma idle_restart_confirms_witness :
  trace (run quotePlain
           [ActRestart (projEditor defaultConfig false);
            ActJob (projEditor defaultConfig false)]
           (activate (projEditor defaultConfig false)))
    = trace (activate (projEditor defaultConfig false))
      ++ [EvInfo notFound; EvInfo restarted]
  /\ client (run quotePlain
               [ActRestart (projEditor defaultConfig false);
                ActJob (projEditor defaultConfig false)]
               (activate (projEditor defaultConfig false)))
     = client (activate (projEditor defaultConfig false))
  /\ disposableClient
       (run quotePlain
          [ActRestart (projEditor defaultConfig false);
           ActJob (projEditor defaultConfig false)]
          (activate (projEditor defaultConfig false)))
     = None.
Proof.
  exact (proj1 (idle_restart_confirms quotePlain
                  (projEditor defaultConfig false) (projEditor defaultConfig false)
                  (activate (projEditor defaultConfig false)) []
                  eq_refl eq_refl eq_refl)
           eq_refl).
Defined.

Lemma restart_unreadable_settings_witness :
  trace (run quotePlain
           [ActRestart (projEditor defaultConfig true); ActSettle 0 true;
            ActJob (projEditor noOptions true)] projectOpen)
    = trace projectOpen ++ [EvStop 0 0; EvStopDone 0; EvResume 0; EvDispose 0]
  /\ jobs (run quotePlain
             [ActRestart (projEditor defaultConfig true); ActSettle 0 true;
              ActJob (projEditor noOptions true)] projectOpen) = []
  /\ client (run quotePlain
               [ActRestart (projEditor defaultConfig true); ActSettle 0 true;
                ActJob (projEditor noOptions true)] projectOpen) = Some 0.
Proof.
  destruct (restart_unreadable_settings quotePlain
              (projEditor defaultConfig true) (projEditor noOptions true)
              projectOpen 0
              (ex_intro _ (projEditor defaultConfig true) (ex_intro _ [] eq_refl))
              eq_refl eq_refl ltac:(intros s; discriminate))
    as (Ht & Hj & Hc & _).
  split; [exact Ht|]. split; [exact Hj|exact Hc].
Defined.

Lemma restart_marker_gone_witness :
  trace (run quotePlain
           [ActRestart (projEditor defaultConfig true); ActSettle 0 true;
            ActJob (projEditor defaultConfig false);
            ActJob (projEditor defaultConfig false);
            ActRestart (projEditor defaultConfig true)] projectOpen)
    = trace projectOpen
      ++ [EvStop 0 0; EvStopDone 0; EvResume 0; EvDispose 0;
          EvInfo notFound; EvInfo restarted; EvStop 0 1]
  /\ client (run quotePlain
               [ActRestart (projEditor defaultConfig true); ActSettle 0 true;
                ActJob (projEditor defaultConfig false);
                ActJob (projEditor defaultConfig false);
                ActRestart (projEditor defaultConfig true)] projectOpen)
     = Some 0.
Proof.
  destruct (restart_marker_gone quotePlain
              (projEditor defaultConfig true) (projEditor defaultConfig false)
              (projEditor defaultConfig true) projectOpen 0 []
              (ex_intro _ (projEditor defaultConfig true) (ex_intro _ [] eq_refl))
              eq_refl eq_refl eq_refl eq_refl)
    as (Ht & Hc & _).
  split; [exact Ht|exact Hc].
Defined.

Lemma no_start_without_restart_witness :
  client (run quotePlain
            [ActLaunch 0 zshMac; ActDeactivate; ActSettle 0 true;
             ActJob (projEditor defaultConfig true)] projectOpen)
    = client projectOpen
  /\ exists evs,
       trace (run quotePlain
                [ActLaunch 0 zshMac; ActDeactivate; ActSettle 0 true;
                 ActJob (projEditor defaultConfig true)] projectOpen)
         = trace projectOpen ++ evs
       /\ Forall passive evs.
Proof.
  destruct (no_start_without_restart quotePlain
              [ActLaunch 0 zshMac; ActDeactivate; ActSettle 0 true;
               ActJob (projEditor defaultConfig true)] projectOpen
              eq_refl projectOpen_dormant)
    as (Hc & _ & _ & Hevs).
  split; [exact Hc|exact Hevs].
Defined.

Lemma rejected_stop_stalls_witness :
  client (run quotePlain
            [ActJob (projEditor defaultConfig true); ActLaunch 0 zshMac]
            (run quotePlain
               [ActRestart (projEditor defaultConfig true); ActSettle 0 false]
               projectOpen))
    = Some 0
  /\ exists evs,
       trace (run quotePlain
                [ActJob (projEditor defaultConfig true); ActLaunch 0 zshMac]
                (run quotePlain
                   [ActRestart (projEditor defaultConfig true); ActSettle 0 false]
                   projectOpen))
         = trace projectOpen ++ [EvStop 0 0; EvStopFailed 0] ++ evs
       /\ Forall passive evs
       /\ Forall (fun e => isInfo e = false) evs.
Proof.
  destruct (rejected_stop_stalls quotePlain (projEditor defaultConfig true)
              [ActJob (projEditor defaultConfig true); ActLaunch 0 zshMac]
              projectOpen 0
              (ex_intro _ (projEditor defaultConfig true) (ex_intro _ [] eq_refl))
              eq_refl projectOpen_dormant eq_refl eq_refl)
    as (Hc & _ & Hevs).
  split; [exact Hc|exact Hevs].
Defined.

Lemma restartedWorld_reachable : reachable quotePlain restartedWorld.
Proof.
  exists (projEditor defaultConfig true),
    (ActRestart (projEditor defaultConfig true) :: afterRestart).
  unfold restartedWorld, projectOpen. reflexivity.
Defined.

Lemma current_client_is_latest_witness :
  disposableClient restartedWorld = client restartedWorld
  /\ match client restartedWorld with
     | None => forall c, EvNew c ∉ trace restartedWorld
     | Some c =>
         exists t1 t2,
           trace restartedWorld = t1 ++ EvNew c :: t2
           /\ forall c', EvNew c' ∉ t2
     end.
Proof.
  exact (current_client_is_latest quotePlain restartedWorld
           restartedWorld_reachable).
Defined.

Lemma older_clients_disposed_witness :
  client restartedWorld = Some 0 \/ EvDispose 0 ∈ trace restartedWorld.
Proof.
  apply (older_clients_disposed quotePlain restartedWorld 0
           restartedWorld_reachable).
  apply list_elem_of_In. vm_compute. right. left. reflexivity.
Defined.
